(** * BAVI audio-feedback engine: a shallow embedding of [AudioGenerator.py]

    The development follows the Python class [AudioGenerator] method by
    method.  Conventions of the embedding:

    - Python [float] values are read as real numbers ([R]); rounding,
      infinities and NaN are outside the model.  Python [int] values are [Z].
    - A Python exception is a value of [exn]; code that may raise returns in
      [Res].  Methods that read or write [self], or that touch the operating
      system (processes, the serial port, the clock), live in the
      state-and-exception monad [M] over a [Machine], which pairs the object
      with a [World].
    - What [print] sends to the console is not part of the model. *)

From Stdlib Require Import Reals Lra Lia ZArith List Bool Ascii String.
Import ListNotations.

Set Implicit Arguments.

(* ================================================================= *)
(** ** Exceptions and fallible computations *)

Inductive exn : Type :=
| ZeroDivisionError
| ValueError
| TypeError
| AttributeError
| IndexError
| SerialException.

Definition Res (A : Type) : Type := (exn + A)%type.

Definition ret {A} (a : A) : Res A := inr a.
Definition raise {A} (e : exn) : Res A := inl e.
Definition bind {A B} (c : Res A) (k : A -> Res B) : Res B :=
  match c with
  | inl e => inl e
  | inr a => k a
  end.

Declare Scope res_scope.
Delimit Scope res_scope with res.
Notation "x <- c ;; k" := (bind c (fun x => k))
  (at level 61, c at next level, right associativity) : res_scope.
Notation "' p <- c ;; k" := (bind c (fun x => let p := x in k))
  (at level 61, p pattern, c at next level, right associativity) : res_scope.

(* ================================================================= *)
(** ** Python arithmetic on floats *)

Open Scope R_scope.

Definition Rltb (x y : R) : bool := if Rlt_dec x y then true else false.
Definition Rleb (x y : R) : bool := if Rle_dec x y then true else false.
Definition Rgtb (x y : R) : bool := Rltb y x.
Definition Rgeb (x y : R) : bool := Rleb y x.

(** [a / b] *)
Definition py_div (a b : R) : Res R :=
  if Req_dec_T b 0 then raise ZeroDivisionError else ret (a / b).

(** [math.sqrt(x)] *)
Definition math_sqrt (x : R) : Res R :=
  if Rltb x 0 then raise ValueError else ret (sqrt x).

(** [math.pow(x, y)]: a positive base takes any exponent, a negative base
    only an integral one, and zero cannot be raised to a negative power. *)
Definition math_pow (x y : R) : Res R :=
  if Rltb 0 x then ret (Rpower x y)
  else if Rltb x 0 then
    if Req_dec_T y (IZR (Int_part y)) then ret (powerRZ x (Int_part y))
    else raise ValueError
  else
    if Rltb y 0 then raise ValueError
    else if Req_dec_T y 0 then ret 1
    else ret 0.

(* ================================================================= *)
(** ** The class [AudioGenerator]: constants and fields *)

Inductive Classification : Type :=
| WIDE_LEFT
| WIDE_RIGHT
| TRACK
| BULLS
| NONE.

(** [a is b] on members of the enumeration. *)
Definition Classification_is (a b : Classification) : bool :=
  match a, b with
  | WIDE_LEFT, WIDE_LEFT | WIDE_RIGHT, WIDE_RIGHT | TRACK, TRACK
  | BULLS, BULLS | NONE, NONE => true
  | _, _ => false
  end.

Definition center_freq : Z := 440.
Definition bulls_freq : Z := 880.

Definition cycle_time_max : R := 1000.
Definition cycle_time_min : R := 200.
Definition cycle_time_blip : R := 40.

Definition thresh_balance : R := 0.5.
Definition thresh_center : R := 0.06.
Definition thresh_min_volume : R := -16.0.

Definition sleep_time : R := 0.2.

Definition error_limit : Z := 10.

Definition pid : Type := nat.

(** Handle on the opened serial port of the range sensor. *)
Inductive Serial : Type := ttyACM0.

(** The instance attributes.  [ONLY_VERT_PACING] is a class attribute that
    the code reads through [self]; it is [true] unless overridden. *)
Record AudioGenerator : Type := mkAudioGenerator {
  ONLY_VERT_PACING : bool;
  boundaries : Z * Z;
  max_displacement : R;
  prev_pid : option pid;
  prev_type : Classification;
  error_cycles : Z;
  lidar : option Serial
}.

(* ================================================================= *)
(** ** Position shaping and classification *)

Section Shaping.

Open Scope res_scope.

Variable self : AudioGenerator.

Definition get_balance (balance : R) : Res R :=
  if Rgtb balance thresh_balance then ret 1.0
  else if Rltb balance (- thresh_balance) then ret (-1.0)
  else
    if Rgeb balance (- thresh_center) && Rleb balance thresh_center then
      ret 0
    else if Rltb balance (- thresh_center) then
      k <- py_div thresh_balance (thresh_balance - thresh_center) ;;
      i <- py_div 1 thresh_balance ;;
      let balance_ := (balance + thresh_center) * k * i in
      e <- py_div 1 2 ;;
      p <- math_pow (- balance_) e ;;
      ret (- p)
    else if Rgtb balance thresh_center then
      k <- py_div thresh_balance (thresh_balance - thresh_center) ;;
      i <- py_div 1 thresh_balance ;;
      let balance_ := (balance - thresh_center) * k * i in
      e <- py_div 1 2 ;;
      math_pow balance_ e
    else ret 0.

Definition get_distance (distance balance : R) : Res R :=
  if ONLY_VERT_PACING self then
    a <- py_div distance (IZR (snd (boundaries self))) ;;
    b <- py_div a 0.4 ;;
    math_pow b 0.8
  else
    let center_region := 0.375 in
    a <- py_div distance (max_displacement self) ;;
    b <- py_div a center_region ;;
    math_pow b 0.8.

Definition classify (balance volume dist_from_center : R) : Classification :=
  if Rleb balance (-1.0) then WIDE_LEFT
  else if Rgeb balance 1.0 then WIDE_RIGHT
  else
    if negb (ONLY_VERT_PACING self) then
      if Rleb dist_from_center 10 then BULLS else TRACK
    else
      if Rltb (Rabs balance) thresh_center && Rltb dist_from_center 10
      then BULLS
      else TRACK.

Definition process_circle (circle : Z * Z)
  : Res (R * R * R * Classification) :=
  let c0 := IZR (fst circle) in
  let c1 := IZR (snd circle) in
  let b0 := IZR (fst (boundaries self)) in
  let b1 := IZR (snd (boundaries self)) in
  hw <- py_div b0 2 ;;
  hw' <- py_div b0 2 ;;
  _balance <- py_div (c0 - hw) hw' ;;
  let _volume := Rabs _balance in
  _dist_from_center <-
    (if ONLY_VERT_PACING self then
       hh <- py_div b1 2 ;;
       ret (Rabs (c1 - hh))
     else
       hw <- py_div b0 2 ;;
       dx <- math_pow (c0 - hw) 2 ;;
       hh <- py_div b1 2 ;;
       dy <- math_pow (c1 - hh) 2 ;;
       math_sqrt (dx + dy)) ;;
  balance <- get_balance _balance ;;
  s <- get_balance _volume ;;
  r <- math_sqrt s ;;
  let volume := thresh_min_volume - ((1 - r) * thresh_min_volume) in
  distance <- get_distance _dist_from_center balance ;;
  let classification := classify balance volume _dist_from_center in
  ret (balance, volume, distance, classification).

End Shaping.

(* ================================================================= *)
(** ** Audio buffers

    A [pydub] audio segment is described by the tones it plays one after
    the other.  [Sine(f).to_audio_segment(d, volume=v)] is one tone, [+]
    concatenates, and [pan] is applied by the code only to freshly
    generated (centred) audio, where it fixes the stereo position of every
    tone of the buffer. *)

Record Tone : Type := mkTone {
  toneHz : Z;
  durationMs : R;
  volumeDb : R;
  pan : R
}.

Definition AudioSegment : Type := list Tone.

Definition Sine : Type := Z.

Definition to_audio_segment (tone : Sine) (duration volume : R)
  : AudioSegment :=
  [ {| toneHz := tone; durationMs := duration; volumeDb := volume;
       pan := 0 |} ].

Definition set_pan (pan_amount : R) (t : Tone) : Tone :=
  {| toneHz := toneHz t; durationMs := durationMs t; volumeDb := volumeDb t;
     pan := pan_amount |}.

Definition AudioSegment_pan (a : AudioSegment) (pan_amount : R)
  : AudioSegment :=
  map (set_pan pan_amount) a.

(** [x.pan(p)] where [x] may be [None].  [pydub] refuses a pan amount
    outside [-1.0, 1.0] with a [ValueError]. *)
Definition pan_method (x : option AudioSegment) (pan_amount : R)
  : Res (option AudioSegment) :=
  match x with
  | None => raise AttributeError
  | Some a =>
      if Rleb (-1.0) pan_amount && Rleb pan_amount 1.0
      then ret (Some (AudioSegment_pan a pan_amount))
      else raise ValueError
  end.

Section Synthesis.

Open Scope res_scope.

Definition generate_beeps (tone : Sine)
    (balance volume dist_from_center : R)
    (classification : Classification) : Res (option AudioSegment) :=
  if Classification_is classification WIDE_LEFT then
    ret (Some (to_audio_segment tone cycle_time_min volume))
  else if Classification_is classification WIDE_RIGHT then
    ret (Some (to_audio_segment tone cycle_time_min volume))
  else if Classification_is classification TRACK then
    dist_from_center <- math_pow dist_from_center 2 ;;
    ret (Some (to_audio_segment tone cycle_time_blip volume
               ++ to_audio_segment tone
                    ((cycle_time_max - cycle_time_blip) * dist_from_center)
                    (-9999)))
  else ret None.

Definition generate_sound (balance volume dist_from_center : R)
    (classification : Classification) : Res (option AudioSegment) :=
  if Classification_is classification WIDE_LEFT then
    b <- generate_beeps center_freq balance volume dist_from_center
           classification ;;
    pan_method b (-1)
  else if Classification_is classification WIDE_RIGHT then
    b <- generate_beeps center_freq balance volume dist_from_center
           classification ;;
    pan_method b 1
  else if Classification_is classification TRACK then
    b <- generate_beeps center_freq balance volume dist_from_center
           classification ;;
    pan_method b balance
  else if Classification_is classification BULLS then
    v <- py_div volume 2 ;;
    ret (Some (to_audio_segment bulls_freq cycle_time_min v))
  else ret None.

(** [extend]: ten doublings.  [None + None] is a [TypeError]. *)
Definition extend (soundItems : option AudioSegment) : Res AudioSegment :=
  match soundItems with
  | None => raise TypeError
  | Some s => ret (Nat.iter 10 (fun soundItems => soundItems ++ soundItems) s)
  end.

End Synthesis.

(* ================================================================= *)
(** ** Text of a sensor reading: [str], [split], indexing and [int] *)

Section Text.

Open Scope string_scope.
Open Scope char_scope.

Definition backslash : ascii := "\".
Definition squote : ascii := "'".
Definition dquote : ascii := "034".

Definition hex_digit (n : N) : ascii :=
  match n with
  | 0%N => "0" | 1%N => "1" | 2%N => "2" | 3%N => "3"
  | 4%N => "4" | 5%N => "5" | 6%N => "6" | 7%N => "7"
  | 8%N => "8" | 9%N => "9" | 10%N => "a" | 11%N => "b"
  | 12%N => "c" | 13%N => "d" | 14%N => "e" | _ => "f"
  end.

(** One byte inside the [repr] of a [bytes] object. *)
Definition repr_byte (quote c : ascii) : string :=
  let n := N_of_ascii c in
  if Ascii.eqb c quote || Ascii.eqb c backslash then
    String backslash (String c EmptyString)
  else if N.eqb n 9 then String backslash "t"
  else if N.eqb n 10 then String backslash "n"
  else if N.eqb n 13 then String backslash "r"
  else if N.ltb n 32 || N.leb 127 n then
    String backslash
      (String "x" (String (hex_digit (N.div n 16))
                     (String (hex_digit (N.modulo n 16)) EmptyString)))
  else String c EmptyString.

(** [str(data)] for [data : bytes]. *)
Definition str_bytes (data : list Byte.byte) : string :=
  let cs := map ascii_of_byte data in
  let quote :=
    if existsb (Ascii.eqb squote) cs && negb (existsb (Ascii.eqb dquote) cs)
    then dquote else squote in
  String "b"
    (String quote
       (String.concat EmptyString (map (repr_byte quote) cs)
        ++ String quote EmptyString)).

(** [s.split(sep)] for a non-empty separator: [skip] counts the
    characters of a separator just matched that are still to be dropped,
    [cur] is the piece being collected. *)
Fixpoint split_aux (sep s : string) (skip : nat) (cur : string)
  : list string :=
  match s with
  | EmptyString => [cur]
  | String c s' =>
      match skip with
      | S k => split_aux sep s' k cur
      | O =>
          if String.prefix sep s
          then cur :: split_aux sep s' (String.length sep - 1) EmptyString
          else split_aux sep s' 0 (cur ++ String c EmptyString)
      end
  end.

Definition split (s sep : string) : list string :=
  split_aux sep s 0 EmptyString.

(** [l[i]] *)
Definition index {A} (l : list A) (i : nat) : Res A :=
  match nth_error l i with
  | Some a => ret a
  | None => raise IndexError
  end.

Definition is_space (c : ascii) : bool :=
  let n := N_of_ascii c in
  (N.leb 9 n && N.leb n 13) || (N.leb 28 n && N.leb n 32).

Definition is_digit (c : ascii) : bool :=
  let n := N_of_ascii c in N.leb 48 n && N.leb n 57.

Fixpoint lstrip (s : string) : string :=
  match s with
  | String c s' => if is_space c then lstrip s' else s
  | EmptyString => EmptyString
  end.

Fixpoint rstrip (s : string) : string :=
  match s with
  | String c s' =>
      match rstrip s' with
      | EmptyString => if is_space c then EmptyString
                       else String c EmptyString
      | r => String c r
      end
  | EmptyString => EmptyString
  end.

(** Decimal digits, where single underscores may separate digits. *)
Fixpoint digits (s : string) (acc : Z) (after_digit : bool) : option Z :=
  match s with
  | EmptyString => if after_digit then Some acc else None
  | String c s' =>
      if is_digit c then
        digits s' (10 * acc + Z.of_N (N_of_ascii c - 48)) true
      else if Ascii.eqb c "_" && after_digit then digits s' acc false
      else None
  end.

(** [int(s)] for [s : str]. *)
Definition py_int (s : string) : Res Z :=
  let body := rstrip (lstrip s) in
  let signed :=
    match body with
    | String "-" r => (true, r)
    | String "+" r => (false, r)
    | _ => (false, body)
    end in
  match digits (snd signed) 0 false with
  | Some n => ret (if fst signed then - n else n)%Z
  | None => raise ValueError
  end.

End Text.

(* ================================================================= *)
(** ** The world outside the object, and the monad of methods *)

(** What the code asks of the operating system, in the order it asks. *)
Inductive event : Type :=
| Start (p : pid) (audio : AudioSegment) (sleep_length : R)
        (classification : Classification)
| Sleep (seconds : R)
| Kill (p : pid) (signal : Z)
| SerialOpen (device : string) (baudrate : Z) (timeout : R)
| SerialWrite (data : list Byte.byte).

(** [next_pid] is the process id the next started process receives.
    [port] is [None] when the serial device cannot be opened; otherwise it
    lists what the coming calls of [read] will give, an exception or the
    bytes received before the timeout (nothing once the list is used up). *)
Record World : Type := mkWorld {
  next_pid : pid;
  trace : list event;
  port : option (list (Res (list Byte.byte)))
}.

Record Machine : Type := mkMachine {
  self : AudioGenerator;
  os : World
}.

Definition M (A : Type) : Type := Machine -> Res A * Machine.

Definition mret {A} (a : A) : M A := fun m => (ret a, m).
Definition mbind {A B} (c : M A) (k : A -> M B) : M B :=
  fun m =>
    match c m with
    | (inl e, m') => (inl e, m')
    | (inr a, m') => k a m'
    end.
Definition lift {A} (r : Res A) : M A := fun m => (r, m).

(** [try: c  except: h] with a bare [except]. *)
Definition try_except {A} (c : M A) (h : M A) : M A :=
  fun m =>
    match c m with
    | (inl _, m') => h m'
    | (inr a, m') => (inr a, m')
    end.

Declare Scope m_scope.
Delimit Scope m_scope with m.
Notation "x <- c ;; k" := (mbind c (fun x => k))
  (at level 61, c at next level, right associativity) : m_scope.
Notation "' p <- c ;; k" := (mbind c (fun x => let p := x in k))
  (at level 61, p pattern, c at next level, right associativity) : m_scope.
Notation "c ;; k" := (mbind c (fun _ => k))
  (at level 61, right associativity) : m_scope.

Definition get_self : M AudioGenerator := fun m => (ret (self m), m).

Definition set_prev_pid (v : option pid) : M unit := fun m =>
  let s := self m in
  (ret tt,
   {| self := {| ONLY_VERT_PACING := ONLY_VERT_PACING s;
                 boundaries := boundaries s;
                 max_displacement := max_displacement s;
                 prev_pid := v;
                 prev_type := prev_type s;
                 error_cycles := error_cycles s;
                 lidar := lidar s |};
      os := os m |}).

Definition set_prev_type (v : Classification) : M unit := fun m =>
  let s := self m in
  (ret tt,
   {| self := {| ONLY_VERT_PACING := ONLY_VERT_PACING s;
                 boundaries := boundaries s;
                 max_displacement := max_displacement s;
                 prev_pid := prev_pid s;
                 prev_type := v;
                 error_cycles := error_cycles s;
                 lidar := lidar s |};
      os := os m |}).

Definition set_error_cycles (v : Z) : M unit := fun m =>
  let s := self m in
  (ret tt,
   {| self := {| ONLY_VERT_PACING := ONLY_VERT_PACING s;
                 boundaries := boundaries s;
                 max_displacement := max_displacement s;
                 prev_pid := prev_pid s;
                 prev_type := prev_type s;
                 error_cycles := v;
                 lidar := lidar s |};
      os := os m |}).

Definition emit (e : event) : M unit := fun m =>
  let w := os m in
  (ret tt,
   {| self := self m;
      os := {| next_pid := next_pid w; trace := trace w ++ [e];
               port := port w |} |}).

(** [p = Process(target=self.play, args=...); p.start()], giving [p.pid]. *)
Definition Process_start (audio : AudioSegment) (sleep_length : R)
    (classification : Classification) : M pid := fun m =>
  let w := os m in
  (ret (next_pid w),
   {| self := self m;
      os := {| next_pid := S (next_pid w);
               trace := trace w ++ [Start (next_pid w) audio sleep_length
                                      classification];
               port := port w |} |}).

(** [self.lidar.read(size)] on an opened port. *)
Definition Serial_read (dev : Serial) (size : nat) : M (list Byte.byte) :=
  fun m =>
    let w := os m in
    match port w with
    | None => (raise SerialException, m)
    | Some [] => (ret [], m)
    | Some (r :: rs) =>
        (bind r (fun data => ret (firstn size data)),
         {| self := self m;
            os := {| next_pid := next_pid w; trace := trace w;
                     port := Some rs |} |})
    end.

(* ================================================================= *)
(** ** The methods that act: construction, playback and the cycle *)

Section Methods.

Open Scope m_scope.

(** [AudioGenerator(boundaries)]: the class attributes give the other
    fields their first values.  The constructor asks for the serial port
    and, when it gets it, writes four bytes to the sensor; opening or
    writing may fail, and the bare [except] leaves [lidar] as it then
    is. *)
Definition __init__ (boundaries : Z * Z) (w : World) : Res Machine :=
  (hw <- py_div (IZR (fst boundaries)) 2 ;;
   dx <- math_pow hw 2 ;;
   hh <- py_div (IZR (snd boundaries)) 2 ;;
   dy <- math_pow hh 2 ;;
   d <- math_sqrt (dx + dy) ;;
   ret {| self := {| ONLY_VERT_PACING := true;
                     boundaries := boundaries;
                     max_displacement := d;
                     prev_pid := None;
                     prev_type := NONE;
                     error_cycles := 0;
                     lidar := match port w with
                              | Some _ => Some ttyACM0
                              | None => None
                              end |};
          os := {| next_pid := next_pid w;
                   trace :=
                     trace w
                     ++ SerialOpen "/dev/ttyACM0" 115200 1
                        :: match port w with
                           | Some _ =>
                               [SerialWrite
                                  [Byte.x00; Byte.x11; Byte.x01; Byte.x45]]
                           | None => []
                           end;
                   port := port w |} |})%res.

(** [os.kill] may fail; whether it does is of no consequence, since the
    bare [except] passes. *)
Definition kill_process (pid : option pid) : M unit :=
  match pid with
  | Some p =>
      emit (Sleep sleep_time) ;;
      try_except (emit (Kill p 1)) (mret tt)
  | None => mret tt
  end.

Definition spawn_play (sound : AudioSegment) (sleep_length : R)
    (classification : Classification) : M unit :=
  p <- Process_start sound sleep_length classification ;;
  self <- get_self ;;
  kill_process (prev_pid self) ;;
  set_prev_pid (Some p).

Definition get_range : M Z :=
  try_except
    (self <- get_self ;;
     dev <- lift (match lidar self with
                  | Some dev => ret dev
                  | None => raise AttributeError
                  end) ;;
     data <- Serial_read dev 20 ;;
     item <- lift (index (split (str_bytes data)
                            (String backslash (String "n" EmptyString)))
                     2) ;;
     lift (py_int item))
    (mret (-1)%Z).

(** One cycle.  The reading of the sensor is only divided by 1000 and
    shown on the console. *)
Definition run (circle : Z * Z) : M unit :=
  target_range <- get_range ;;
  _ <- lift (py_div (IZR target_range) 1000) ;;
  self <- get_self ;;
  if Z.eqb (fst circle) 0 && Z.eqb (snd circle) 0 then
    if Z.geb (error_cycles self) error_limit then
      kill_process (prev_pid self) ;;
      set_prev_pid None ;;
      set_prev_type NONE ;;
      self <- get_self ;;
      set_error_cycles (error_cycles self + 1)
    else
      set_error_cycles (error_cycles self + 1)
  else
    '(balance, volume, dist_from_center, classification) <-
       lift (process_circle self circle) ;;
    if negb (Classification_is classification TRACK)
       && Classification_is classification (prev_type self)
    then mret tt
    else
      sound <- lift (generate_sound balance volume dist_from_center
                       classification) ;;
      sound <- lift (extend sound) ;;
      spawn_play sound dist_from_center classification ;;
      set_prev_type classification ;;
      set_error_cycles 0.

(** The driving loop: one call of [run] per frame, in order. *)
Fixpoint cycles (circles : list (Z * Z)) : M unit :=
  match circles with
  | [] => mret tt
  | circle :: rest => run circle ;; cycles rest
  end.

End Methods.

(* ================================================================= *)
(** ** Specification-side definitions

    These follow the wording of the specification and are compared with
    the methods above. *)

Definition balanceThreshold : R := 0.5.
Definition centerDeadzone : R := 0.06.
Definition minVolumeDb : R := -16.0.

Definition sign (v : R) : R :=
  if Rltb 0 v then 1 else if Rltb v 0 then -1 else 0.

(** The position of [v] between dead zone and saturation, on a scale from
    0 to 1. *)
Definition rescale (v : R) : R :=
  (v - centerDeadzone)
  * (balanceThreshold / (balanceThreshold - centerDeadzone))
  * (1 / balanceThreshold).

(** Saturation outside [balanceThreshold], zero inside [centerDeadzone],
    and in between the square-root curve that keeps the sign of [v]. *)
Definition shapeBalance (v : R) : R :=
  if Rgtb (Rabs v) balanceThreshold then sign v * 1.0
  else if Rleb (Rabs v) centerDeadzone then 0
  else if Rgtb v centerDeadzone then sqrt (rescale v)
  else - sqrt (rescale (- v)).

(** The classification rule of the specification, which has one rule for
    both pacing modes. *)
Definition classify_spec (balance distanceFromCenter : R) : Classification :=
  if Rleb balance (-1.0) then WIDE_LEFT
  else if Rgeb balance 1.0 then WIDE_RIGHT
  else if Rltb (Rabs balance) centerDeadzone && Rltb distanceFromCenter 10
       then BULLS
  else TRACK.

(** The rule the radial mode follows: between the two wide zones the
    distance alone decides, and a distance of exactly 10 is still a hit. *)
Definition classify_radial (balance distanceFromCenter : R) : Classification :=
  if Rleb balance (-1.0) then WIDE_LEFT
  else if Rgeb balance 1.0 then WIDE_RIGHT
  else if Rleb distanceFromCenter 10 then BULLS
  else TRACK.

(** The raw balance of a horizontal pixel position. *)
Definition rawBalance (width x : Z) : R :=
  (IZR x - IZR width / 2) / (IZR width / 2).

(** The frame has positive sides, and the diagonal the constructor
    computed from them is positive. *)
Definition well_formed (s : AudioGenerator) : Prop :=
  (0 < fst (boundaries s))%Z /\ (0 < snd (boundaries s))%Z
  /\ 0 < max_displacement s.

Definition is_Start (e : event) : bool :=
  match e with
  | Start _ _ _ _ => true
  | _ => false
  end.

(** Number of playback tasks started so far. *)
Definition spawned (m : Machine) : nat :=
  List.length (filter is_Start (trace (os m))).

(** The position that stands for "no target this cycle". *)
Definition sentinel : Z * Z := (0, 0)%Z.

(** States the supervisor can be in: the one the constructor builds, and
    any state in which a call of [run] leaves the object, whether the call
    returns or raises. *)
Inductive reachable : Machine -> Prop :=
| reachable_init (b : Z * Z) (w : World) (m : Machine) :
    __init__ b w = ret m -> reachable m
| reachable_run (m m' : Machine) (circle : Z * Z) (r : Res unit) :
    reachable m -> run circle m = (r, m') -> reachable m'.

(** The reading [get_range] looks for in the received bytes. *)
Definition parse_reading (data : list Byte.byte) : Res Z :=
  (item <- index (split (str_bytes data)
                    (String backslash (String "n"%char EmptyString))) 2 ;;
   py_int item)%res.

(* ================================================================= *)
(** ** Concrete objects used in examples *)

Definition no_sensor : World :=
  {| next_pid := 100%nat; trace := []; port := None |}.

(** A 640 by 480 frame in the vertical-only mode, as constructed. *)
Definition gen640 : AudioGenerator :=
  {| ONLY_VERT_PACING := true;
     boundaries := (640, 480)%Z;
     max_displacement := sqrt (320 * 320 + 240 * 240);
     prev_pid := None;
     prev_type := NONE;
     error_cycles := 0;
     lidar := None |}.

(** The same frame in the radial mode. *)
Definition gen640_radial : AudioGenerator :=
  {| ONLY_VERT_PACING := false;
     boundaries := (640, 480)%Z;
     max_displacement := sqrt (320 * 320 + 240 * 240);
     prev_pid := None;
     prev_type := NONE;
     error_cycles := 0;
     lidar := None |}.

(** A supervisor in the middle of a [WIDE_LEFT] playback by process 100,
    with [misses] detection losses counted so far. *)
Definition playing_left (misses : Z) : Machine :=
  {| self := {| ONLY_VERT_PACING := true;
                boundaries := (640, 480)%Z;
                max_displacement := sqrt (320 * 320 + 240 * 240);
                prev_pid := Some 100%nat;
                prev_type := WIDE_LEFT;
                error_cycles := misses;
                lidar := None |};
     os := {| next_pid := 101%nat; trace := []; port := None |} |}.

(** A sensor that has sent three complete readings and the start of a
    fourth, each ended by a line feed. *)
Definition three_readings : list Byte.byte :=
  map byte_of_ascii
    (list_ascii_of_string
       (String.append "1234"
          (String "010"%char
             (String.append "1235"
                (String "010"%char
                   (String.append "1236"
                      (String "010"%char "12"%string))))))).

Definition with_sensor (reads : list (Res (list Byte.byte))) : Machine :=
  {| self := {| ONLY_VERT_PACING := true;
                boundaries := (640, 480)%Z;
                max_displacement := sqrt (320 * 320 + 240 * 240);
                prev_pid := None;
                prev_type := NONE;
                error_cycles := 0;
                lidar := Some ttyACM0 |};
     os := {| next_pid := 100%nat; trace := []; port := Some reads |} |}.

(* ================================================================= *)
(** ** Auxiliary definitions for the statements on [run] *)

(** What the [try] block of [get_range] evaluates to: the sensor may be
    absent, the read may fail, the bytes may not hold a third field, or
    the field may not be a number. *)
Definition reading_attempt (m : Machine) : Res Z :=
  match lidar (self m) with
  | None => raise AttributeError
  | Some _ =>
      match port (os m) with
      | None => raise SerialException
      | Some [] => parse_reading []
      | Some (r :: _) => bind r (fun data => parse_reading (firstn 20 data))
      end
  end.

(** The machine once the sensor has been asked: one pending read is used
    up, everything else is as before. *)
Definition after_read (m : Machine) : Machine :=
  match lidar (self m), port (os m) with
  | Some _, Some (_ :: rs) =>
      {| self := self m;
         os := {| next_pid := next_pid (os m); trace := trace (os m);
                  port := Some rs |} |}
  | _, _ => m
  end.

(** The requests [kill_process] makes. *)
Definition kill_events (p : option pid) : list event :=
  match p with
  | Some p => [Sleep sleep_time; Kill p 1]
  | None => []
  end.

(** All that playback depends on and acts on: every field of the object
    but the sensor handle, and the processes and requests of the world. *)
Definition playback_view (m : Machine)
  : bool * (Z * Z) * R * option pid * Classification * Z * pid * list event :=
  (ONLY_VERT_PACING (self m), boundaries (self m), max_displacement (self m),
   prev_pid (self m), prev_type (self m), error_cycles (self m),
   next_pid (os m), trace (os m)).

(** The classification [process_circle] gives a position, if it returns. *)
Definition classification_of (s : AudioGenerator) (circle : Z * Z)
  : option Classification :=
  match process_circle s circle with
  | inr (_, _, _, c) => Some c
  | inl _ => None
  end.

(** An idle supervisor for a 640 by 480 frame on a machine without range
    sensor. *)
Definition init640 : Machine := {| self := gen640; os := no_sensor |}.

(** The supervisor as constructed for a 640 by 480 frame on that
    machine: the port was asked for, in vain. *)
Definition constructed640 : Machine :=
  {| self := gen640;
     os := {| next_pid := 100%nat;
              trace := [SerialOpen "/dev/ttyACM0" 115200 1];
              port := None |} |}.

(** That supervisor after it has seen a target far left and then lost it
    for [n] cycles. *)
Definition seen_then_lost (n : nat) : Machine :=
  snd (cycles ((150, 70)%Z :: repeat sentinel n) constructed640).

(* ================================================================= *)
(** ** The demonstration loop at the end of [AudioGenerator.py]

    The script bounces a target through the frame and calls [run] on it,
    pausing a random time between calls.  The loop has no end; the model
    runs it once for every pause drawn, the draws being given. *)

Section Demo.

Open Scope m_scope.
Open Scope Z_scope.

(** The statements that move the target after each call. *)
Definition bounce (curCircle : Z * Z) (curIter curIterY : Z)
  : (Z * Z) * Z * Z :=
  let curIter :=
    if ((fst curCircle =? 640) && (curIter >? 0))
       || ((fst curCircle =? 0) && (curIter <? 0))
    then - curIter else curIter in
  let curIterY :=
    if ((snd curCircle =? 480) && (curIterY >? 0))
       || ((snd curCircle =? 0) && (curIterY <? 0))
    then - curIterY else curIterY in
  ((fst curCircle + curIter, snd curCircle + curIterY), curIter, curIterY).

Fixpoint main_loop (pauses : list R) (curCircle : Z * Z)
    (curIter curIterY : Z) : M ((Z * Z) * Z * Z) :=
  match pauses with
  | [] => mret (curCircle, curIter, curIterY)
  | pause :: pauses =>
      run curCircle ;;
      emit (Sleep pause) ;;
      let '(curCircle, curIter, curIterY) :=
        bounce curCircle curIter curIterY in
      main_loop pauses curCircle curIter curIterY
  end.

(** The script: construct the generator for a 640 by 480 frame, then loop
    from (150, 70) in steps of 10. *)
Definition main (pauses : list R) (w : World)
  : Res (Res ((Z * Z) * Z * Z) * Machine) :=
  (m <- __init__ (640, 480) w ;;
   ret (main_loop pauses (150, 70) 10 10 m))%res.

(** The target after [n] turns of the loop. *)
Definition target_after (n : nat) : (Z * Z) * Z * Z :=
  Nat.iter n (fun st => bounce (fst (fst st)) (snd (fst st)) (snd st))
    ((150, 70), 10, 10).

End Demo.

(* ================================================================= *)
(** ** [VideoProcessor.discard_worst]

    The circles come from the Hough transform as one row of triples
    [x, y, r] inside an outer array. *)

Module VideoProcessor.

Record VideoProcessor : Type := mkVideoProcessor {
  boundaries : Z * Z
}.

Definition Circle : Type := (R * R * R)%type.

Section DiscardWorst.

Open Scope res_scope.

Variable self : VideoProcessor.

(** The body of the [for] loop, run over the circles in order. *)
Fixpoint for_circle (circles : list Circle) (bestCircle : option Circle)
    (bestHeur : R) : Res (option Circle * R) :=
  match circles with
  | [] => ret (bestCircle, bestHeur)
  | circle :: rest =>
      hw <- py_div (IZR (fst (boundaries self))) 2 ;;
      hh <- py_div (IZR (snd (boundaries self))) 2 ;;
      let curHeur :=
        Rabs (fst (fst circle) - hw) + Rabs (snd (fst circle) - hh) in
      if Rltb curHeur bestHeur
      then for_circle rest (Some circle) curHeur
      else for_circle rest bestCircle bestHeur
  end.

Definition discard_worst (circles : list (list Circle))
  : Res (option Circle) :=
  circles <- index circles 0 ;;
  let bestHeur := 9999999999 in
  let bestCircle := None in
  r <- for_circle circles bestCircle bestHeur ;;
  ret (fst r).

End DiscardWorst.

(** The heuristic of [discard_worst]: the distance to the frame centre
    along the axes. *)
Definition heuristic (self : VideoProcessor) (circle : Circle) : R :=
  Rabs (fst (fst circle) - IZR (fst (boundaries self)) / 2)
  + Rabs (snd (fst circle) - IZR (snd (boundaries self)) / 2).

(** One turn of the loop of [discard_worst], on its two variables. *)
Definition turn (self : VideoProcessor) (best : option Circle * R)
    (circle : Circle) : option Circle * R :=
  if Rltb (heuristic self circle) (snd best)
  then (Some circle, heuristic self circle)
  else best.

End VideoProcessor.

(* ================================================================= *)
(** ** Further notions for statements on the code *)

(** The processes started and not yet sent a kill, in the order of their
    start. *)
Definition live_step (acc : list pid) (e : event) : list pid :=
  match e with
  | Start p _ _ _ => acc ++ [p]
  | Kill p _ => remove Nat.eq_dec p acc
  | _ => acc
  end.

Definition live (t : list event) : list pid := fold_left live_step t [].

Definition handle_list (p : option pid) : list pid :=
  match p with
  | Some p => [p]
  | None => []
  end.

(** The bookkeeping of the supervisor matches the processes: the one
    recorded handle is the one live process, and process ids not yet
    given out are above it. *)
Definition one_live (m : Machine) : Prop :=
  live (trace (os m)) = handle_list (prev_pid (self m))
  /\ forall p, prev_pid (self m) = Some p -> (p < next_pid (os m))%nat.

(** The pixel distance from the frame centre that [process_circle] uses:
    vertical only, or along the diagonal. *)
Definition pixel_distance (s : AudioGenerator) (circle : Z * Z) : R :=
  if ONLY_VERT_PACING s
  then Rabs (IZR (snd circle) - IZR (snd (boundaries s)) / 2)
  else sqrt ((IZR (fst circle) - IZR (fst (boundaries s)) / 2)
             * (IZR (fst circle) - IZR (fst (boundaries s)) / 2)
             + (IZR (snd circle) - IZR (snd (boundaries s)) / 2)
               * (IZR (snd circle) - IZR (snd (boundaries s)) / 2)).

(** The other side of the frame. *)
Definition mirrored (c : Classification) : Classification :=
  match c with
  | WIDE_LEFT => WIDE_RIGHT
  | WIDE_RIGHT => WIDE_LEFT
  | c => c
  end.

(** Length of a buffer in milliseconds. *)
Definition duration (a : AudioSegment) : R :=
  fold_right (fun t acc => durationMs t + acc) 0 a.

(** What holds of the target of the demonstration loop at every turn: it
    sits on the grid of step 10 inside the 640 by 480 frame, moves by 10
    in each direction, and the two bounces stay out of step. *)
Definition bouncing (curCircle : Z * Z) (curIter curIterY : Z) : Prop :=
  (fst curCircle mod 10 = 0 /\ snd curCircle mod 10 = 0
   /\ 0 <= fst curCircle <= 640 /\ 0 <= snd curCircle <= 480
   /\ (curIter = 10 \/ curIter = -10)
   /\ (curIterY = 10 \/ curIterY = -10)
   /\ ((if curIter >? 0 then fst curCircle else 1280 - fst curCircle)
       - (if curIterY >? 0 then snd curCircle else 960 - snd curCircle))
      mod 320 = 80)%Z.

(* ================================================================= *)
(** ** Facts on the arithmetic primitives *)

Lemma Rltb_spec (x y : R) : reflect (x < y) (Rltb x y).
Proof. unfold Rltb. destruct (Rlt_dec x y); constructor; assumption. Qed.

Lemma Rleb_spec (x y : R) : reflect (x <= y) (Rleb x y).
Proof. unfold Rleb. destruct (Rle_dec x y); constructor; assumption. Qed.

Lemma Rgtb_spec (x y : R) : reflect (x > y) (Rgtb x y).
Proof. unfold Rgtb. apply Rltb_spec. Qed.

Lemma Rgeb_spec (x y : R) : reflect (x >= y) (Rgeb x y).
Proof.
  unfold Rgeb. destruct (Rleb_spec y x); constructor; lra.
Qed.

(** Decide every comparison of the goal and close what arithmetic closes. *)
Ltac cmp :=
  repeat match goal with
    | |- context [Rltb ?x ?y] => destruct (Rltb_spec x y)
    | |- context [Rleb ?x ?y] => destruct (Rleb_spec x y)
    | |- context [Rgtb ?x ?y] => destruct (Rgtb_spec x y)
    | |- context [Rgeb ?x ?y] => destruct (Rgeb_spec x y)
    end;
  cbn [andb orb negb].

Lemma py_div_ok (a b : R) : b <> 0 -> py_div a b = ret (a / b).
Proof.
  intros Hb. unfold py_div. destruct (Req_dec_T b 0); [contradiction | reflexivity].
Qed.

Lemma py_div_zero (a : R) : py_div a 0 = raise ZeroDivisionError.
Proof.
  unfold py_div. destruct (Req_dec_T 0 0); [reflexivity | contradiction n; reflexivity].
Qed.

Lemma math_sqrt_ok (x : R) : 0 <= x -> math_sqrt x = ret (sqrt x).
Proof. intros Hx. unfold math_sqrt. cmp; [lra | reflexivity]. Qed.

Lemma math_pow_pos (x y : R) : 0 < x -> math_pow x y = ret (Rpower x y).
Proof. intros Hx. unfold math_pow. cmp; try reflexivity; lra. Qed.

Lemma math_pow_half (x : R) : 0 < x -> math_pow x (1 / 2) = ret (sqrt x).
Proof.
  intros Hx. rewrite math_pow_pos by assumption.
  replace (1 / 2) with (/ 2) by lra.
  rewrite Rpower_sqrt by assumption. reflexivity.
Qed.

Lemma math_pow_zero (y : R) : 0 < y -> math_pow 0 y = ret 0.
Proof.
  intros Hy. unfold math_pow. cmp; try lra.
  destruct (Req_dec_T y 0); [lra | reflexivity].
Qed.

Lemma math_pow_2 (x : R) : math_pow x 2 = ret (x * x).
Proof.
  destruct (Rtotal_order x 0) as [Hx | [Hx | Hx]].
  - unfold math_pow. cmp; try lra.
    change 2 with (INR 2). rewrite Int_part_INR.
    destruct (Req_dec_T (INR 2) (IZR (Z.of_nat 2))) as [_ | Hn].
    + rewrite <- pow_powerRZ. unfold ret. f_equal. simpl. ring.
    + contradiction Hn. simpl. lra.
  - subst x. rewrite math_pow_zero by lra. unfold ret. f_equal. ring.
  - rewrite math_pow_pos by lra. change 2 with (INR 2).
    rewrite Rpower_pow by lra. unfold ret. f_equal. simpl. ring.
Qed.

(** On a base that is not negative, a positive power is defined and is not
    negative either; it vanishes exactly at zero. *)
Lemma math_pow_nonneg (x y : R) :
  0 <= x -> 0 < y ->
  exists r, math_pow x y = ret r /\ 0 <= r /\ (x = 0 -> r = 0).
Proof.
  intros Hx Hy. destruct Hx as [Hx | Hx].
  - exists (Rpower x y). rewrite math_pow_pos by assumption.
    split; [reflexivity | split; [| lra]].
    unfold Rpower. left. apply exp_pos.
  - subst x. exists 0. rewrite math_pow_zero by assumption.
    split; [reflexivity | split; [lra | reflexivity]].
Qed.

(* ================================================================= *)
(** ** Balance shaping against its specification *)

Lemma rescale_pos (v : R) : centerDeadzone < v -> 0 < rescale v.
Proof. unfold rescale, centerDeadzone, balanceThreshold. intros Hv. lra. Qed.

Lemma rescale_le_1 (v : R) : v <= balanceThreshold -> rescale v <= 1.
Proof. unfold rescale, centerDeadzone, balanceThreshold. intros Hv. lra. Qed.

(** What [get_balance] returns, for every input. *)
Lemma get_balance_value (v : R) :
  get_balance v = ret (shapeBalance v).
Proof.
  unfold get_balance, shapeBalance, sign.
  unfold thresh_balance, thresh_center, balanceThreshold, centerDeadzone.
  destruct (Rcase_abs v) as [Hneg | Hpos].
  - rewrite (Rabs_left v Hneg). cmp; try lra; try (f_equal; lra).
    rewrite !py_div_ok by lra. cbn [bind ret].
    rewrite math_pow_half.
    + cbn [bind ret]. unfold ret. do 3 f_equal.
      unfold rescale, balanceThreshold, centerDeadzone. lra.
    + pose proof (rescale_pos (v := - v)) as H.
      unfold rescale, balanceThreshold, centerDeadzone in H.
      replace (- ((v + 0.06) * (0.5 / (0.5 - 0.06)) * (1 / 0.5)))
        with ((- v - 0.06) * (0.5 / (0.5 - 0.06)) * (1 / 0.5)) by lra.
      apply H. lra.
  - rewrite (Rabs_right v Hpos). cmp; try lra; try (f_equal; lra).
    rewrite !py_div_ok by lra. cbn [bind ret].
    rewrite math_pow_half; [reflexivity |].
    apply (rescale_pos (v := v)). unfold centerDeadzone. lra.
Qed.

(** C4: for every real input [get_balance] returns, and returns the value
    of the specification's piecewise definition [shapeBalance]: the sign
    of [v] beyond [balanceThreshold], zero within [centerDeadzone], and the
    signed square root of the rescaled input in between. *)
Theorem get_balance_shapeBalance (v : R) :
  get_balance v = ret (shapeBalance v).
Proof. exact (get_balance_value v). Qed.

(* ================================================================= *)
(** ** Range of the shaped balance *)

Lemma sqrt_unit (x : R) : x <= 1 -> 0 <= sqrt x <= 1.
Proof.
  intros Hx. split; [apply sqrt_pos |].
  rewrite <- sqrt_1. apply sqrt_le_1_alt. exact Hx.
Qed.

Lemma shapeBalance_range (v : R) : -1 <= shapeBalance v <= 1.
Proof.
  unfold shapeBalance, sign, balanceThreshold, centerDeadzone.
  destruct (Rcase_abs v) as [Hneg | Hpos].
  - rewrite (Rabs_left v Hneg). cmp; try lra.
    assert (H : rescale (- v) <= 1)
      by (apply rescale_le_1; unfold balanceThreshold; lra).
    apply sqrt_unit in H. lra.
  - rewrite (Rabs_right v Hpos). cmp; try lra.
    assert (H : rescale v <= 1)
      by (apply rescale_le_1; unfold balanceThreshold; lra).
    apply sqrt_unit in H. lra.
Qed.

Lemma shapeBalance_nonneg (v : R) : 0 <= v -> 0 <= shapeBalance v.
Proof.
  intros Hv. unfold shapeBalance, sign, balanceThreshold, centerDeadzone.
  rewrite (Rabs_right v) by lra. cmp; try lra. apply sqrt_pos.
Qed.

(* ================================================================= *)
(** ** Classification *)

Lemma classify_modes (s : AudioGenerator) (balance volume d : R) :
  classify s balance volume d
  = if ONLY_VERT_PACING s then classify_spec balance d
    else classify_radial balance d.
Proof.
  unfold classify, classify_spec, classify_radial, thresh_center,
    centerDeadzone.
  destruct (ONLY_VERT_PACING s); cbn [negb]; reflexivity.
Qed.

Lemma classify_not_NONE (s : AudioGenerator) (balance volume d : R) :
  classify s balance volume d <> NONE.
Proof.
  unfold classify.
  destruct (Rleb balance (-1.0)); [discriminate |].
  destruct (Rgeb balance 1.0); [discriminate |].
  destruct (negb (ONLY_VERT_PACING s)).
  - destruct (Rleb d 10); discriminate.
  - destruct (Rltb (Rabs balance) thresh_center && Rltb d 10); discriminate.
Qed.

(** C3, as the code has it: in the vertical-only mode [classify] is the
    specification's rule ([WIDE_LEFT] at [balance <= -1], else [WIDE_RIGHT]
    at [balance >= 1], else [BULLS] when [|balance| < centerDeadzone] and the
    distance is below 10, else [TRACK]); in the radial mode the balance
    plays no part between the wide zones and [BULLS] is a distance of at
    most 10.  [NONE] is returned in neither mode. *)
Theorem classify_characterised (s : AudioGenerator) (balance volume d : R) :
  classify s balance volume d
  = (if ONLY_VERT_PACING s then classify_spec balance d
     else classify_radial balance d)
  /\ classify s balance volume d <> NONE.
Proof.
  split; [apply classify_modes | apply classify_not_NONE].
Qed.

(** C3 as stated fails in the radial mode: a target half way to the right
    edge and 5 pixels from the centre is [BULLS] for the code, although
    its balance is far outside the dead zone. *)
Lemma classify_radial_counterexample :
  classify gen640_radial 0.5 0 5 = BULLS
  /\ ~ Rabs 0.5 < centerDeadzone
  /\ classify_spec 0.5 5 = TRACK.
Proof.
  assert (Habs : Rabs 0.5 = 0.5) by (apply Rabs_right; lra).
  repeat split.
  - unfold classify, gen640_radial. cbn [ONLY_VERT_PACING negb].
    cmp; try lra; reflexivity.
  - rewrite Habs. unfold centerDeadzone. lra.
  - unfold classify_spec, centerDeadzone. rewrite Habs.
    cmp; try lra; reflexivity.
Qed.

(* ================================================================= *)
(** ** [process_circle] *)

Lemma div_nonneg (a b : R) : 0 <= a -> 0 < b -> 0 <= a / b.
Proof.
  intros Ha Hb. unfold Rdiv. apply Rmult_le_pos; [exact Ha |].
  left. apply Rinv_0_lt_compat. exact Hb.
Qed.

Lemma get_distance_ok (s : AudioGenerator) (dist balance : R) :
  well_formed s -> 0 <= dist ->
  exists d, get_distance s dist balance = ret d /\ 0 <= d
            /\ (dist = 0 -> d = 0).
Proof.
  intros (Hw & Hh & Hm) Hd. unfold get_distance.
  apply IZR_lt in Hh.
  destruct (ONLY_VERT_PACING s).
  - rewrite py_div_ok by lra. cbn [bind ret].
    rewrite py_div_ok by lra. cbn [bind ret].
    set (h := IZR (snd (boundaries s))) in *.
    destruct (@math_pow_nonneg (dist / h / 0.4) 0.8) as (r & Hr & Hr0 & Hrz).
    + apply div_nonneg; [| lra].
      apply div_nonneg; lra.
    + lra.
    + exists r. split; [exact Hr | split; [exact Hr0 |]].
      intros ->. apply Hrz. unfold Rdiv. ring.
  - rewrite py_div_ok by lra. cbn [bind ret].
    rewrite py_div_ok by lra. cbn [bind ret].
    set (h := max_displacement s) in *.
    destruct (@math_pow_nonneg (dist / h / 0.375) 0.8) as (r & Hr & Hr0 & Hrz).
    + apply div_nonneg; [| lra].
      apply div_nonneg; lra.
    + lra.
    + exists r. split; [exact Hr | split; [exact Hr0 |]].
      intros ->. apply Hrz. unfold Rdiv. ring.
Qed.

(** In a well-formed frame [process_circle] returns.  [dfc] is the pixel
    distance from the frame centre that it hands to [classify], [d] the
    scaled distance that it returns. *)
Lemma process_circle_ok (s : AudioGenerator) (circle : Z * Z) :
  well_formed s ->
  exists dfc d,
    process_circle s circle
    = ret (shapeBalance (rawBalance (fst (boundaries s)) (fst circle)),
           thresh_min_volume
           - (1 - sqrt (shapeBalance
                          (Rabs (rawBalance (fst (boundaries s))
                                   (fst circle)))))
             * thresh_min_volume,
           d,
           classify s
             (shapeBalance (rawBalance (fst (boundaries s)) (fst circle)))
             (thresh_min_volume
              - (1 - sqrt (shapeBalance
                             (Rabs (rawBalance (fst (boundaries s))
                                      (fst circle)))))
                * thresh_min_volume)
             dfc)
    /\ 0 <= dfc /\ 0 <= d /\ (dfc = 0 -> d = 0)
    /\ (ONLY_VERT_PACING s = true ->
        dfc = Rabs (IZR (snd circle) - IZR (snd (boundaries s)) / 2)).
Proof.
  intros Hwf. pose proof Hwf as (Hw & Hh & Hm).
  apply IZR_lt in Hw. apply IZR_lt in Hh.
  unfold process_circle, rawBalance.
  set (w := IZR (fst (boundaries s))) in *.
  set (h := IZR (snd (boundaries s))) in *.
  set (x := IZR (fst circle)). set (y := IZR (snd circle)).
  rewrite !(@py_div_ok w 2) by lra. cbn [bind ret].
  rewrite (@py_div_ok (x - w / 2) (w / 2)) by lra. cbn [bind ret].
  set (raw := (x - w / 2) / (w / 2)).
  match goal with
  | |- context [bind (if ONLY_VERT_PACING s then ?a else ?b) _] =>
      assert (Hdfc : exists dfc,
        (if ONLY_VERT_PACING s then a else b) = ret dfc
        /\ 0 <= dfc
        /\ (ONLY_VERT_PACING s = true -> dfc = Rabs (y - h / 2)))
  end.
  { destruct (ONLY_VERT_PACING s).
    - exists (Rabs (y - h / 2)). rewrite py_div_ok by lra.
      split; [reflexivity | split; [apply Rabs_pos | reflexivity]].
    - exists (sqrt ((x - w / 2) * (x - w / 2) + (y - h / 2) * (y - h / 2))).
      cbn [bind ret]. rewrite math_pow_2. cbn [bind ret].
      rewrite py_div_ok by lra. cbn [bind ret].
      rewrite math_pow_2. cbn [bind ret].
      rewrite math_sqrt_ok
        by (pose proof (Rle_0_sqr (x - w / 2));
            pose proof (Rle_0_sqr (y - h / 2)); unfold Rsqr in *; lra).
      split; [reflexivity | split; [apply sqrt_pos | discriminate]]. }
  destruct Hdfc as (dfc & -> & Hdfc0 & Hvert). cbn [bind ret].
  rewrite !get_balance_value. cbn [bind ret].
  rewrite math_sqrt_ok by (apply shapeBalance_nonneg, Rabs_pos).
  cbn [bind ret].
  destruct (@get_distance_ok s dfc (shapeBalance raw) Hwf Hdfc0)
    as (d & -> & Hd0 & Hdz).
  cbn [bind ret].
  exists dfc, d. repeat split; assumption.
Qed.

(** C5: with positive frame boundaries [process_circle] returns for every
    target position, in either pacing mode; the balance it returns lies in
    [-1, 1], the volume is
    [minVolumeDb - (1 - sqrt (shapeBalance |rawBalance|)) * minVolumeDb]
    and lies in [minVolumeDb, 0], that is in [-16, 0]. *)
Theorem process_circle_bounds (s : AudioGenerator) (circle : Z * Z) :
  well_formed s ->
  exists balance volume distance classification,
    process_circle s circle = ret (balance, volume, distance, classification)
    /\ -1 <= balance <= 1
    /\ volume
       = minVolumeDb
         - (1 - sqrt (shapeBalance
                        (Rabs (rawBalance (fst (boundaries s)) (fst circle)))))
           * minVolumeDb
    /\ minVolumeDb <= volume <= 0
    /\ minVolumeDb = -16.
Proof.
  intros Hwf.
  destruct (@process_circle_ok s circle Hwf) as (dfc & d & Heq & _).
  do 4 eexists. split; [exact Heq |].
  split; [apply shapeBalance_range |].
  unfold thresh_min_volume, minVolumeDb.
  split; [reflexivity |].
  set (raw := rawBalance (fst (boundaries s)) (fst circle)).
  pose proof (shapeBalance_range (Rabs raw)) as [_ Hhi].
  pose proof (sqrt_unit Hhi) as [Hlo' Hhi'].
  split; [lra | lra].
Qed.

Lemma gen640_well_formed : well_formed gen640.
Proof.
  unfold well_formed, gen640. cbn [boundaries max_displacement fst snd].
  repeat split; try lia. apply sqrt_lt_R0. lra.
Qed.

Lemma gen640_radial_well_formed : well_formed gen640_radial.
Proof.
  unfold well_formed, gen640_radial. cbn [boundaries max_displacement fst snd].
  repeat split; try lia. apply sqrt_lt_R0. lra.
Qed.

(** A 640 by 480 frame in the radial mode and a target at (150, 70). *)
Lemma process_circle_bounds_witness :
  exists balance volume distance classification,
    process_circle gen640_radial (150, 70)%Z
    = ret (balance, volume, distance, classification)
    /\ -1 <= balance <= 1
    /\ volume
       = minVolumeDb
         - (1 - sqrt (shapeBalance
                        (Rabs (rawBalance (fst (boundaries gen640_radial))
                                 (fst (150, 70)%Z)))))
           * minVolumeDb
    /\ minVolumeDb <= volume <= 0
    /\ minVolumeDb = -16.
Proof.
  apply (@process_circle_bounds gen640_radial (150, 70)%Z).
  unfold well_formed, gen640_radial. cbn [boundaries max_displacement fst snd].
  repeat split; try lia. apply sqrt_lt_R0. lra.
Defined.

(* ================================================================= *)
(** ** The three regimes of [shapeBalance] *)

Lemma shapeBalance_saturated_right (v : R) :
  balanceThreshold < v -> shapeBalance v = 1.
Proof.
  unfold shapeBalance, sign, balanceThreshold, centerDeadzone. intros Hv.
  rewrite (Rabs_right v) by lra. cmp; lra.
Qed.

Lemma shapeBalance_saturated_left (v : R) :
  v < - balanceThreshold -> shapeBalance v = -1.
Proof.
  unfold shapeBalance, sign, balanceThreshold, centerDeadzone. intros Hv.
  rewrite (Rabs_left v) by lra. cmp; lra.
Qed.

Lemma shapeBalance_deadzone (v : R) :
  Rabs v <= centerDeadzone -> shapeBalance v = 0.
Proof.
  unfold shapeBalance, sign, balanceThreshold, centerDeadzone. intros Hv.
  cmp; lra.
Qed.

Lemma shapeBalance_curve_right (v : R) :
  centerDeadzone < v <= balanceThreshold -> shapeBalance v = sqrt (rescale v).
Proof.
  unfold shapeBalance, sign, balanceThreshold, centerDeadzone. intros Hv.
  rewrite (Rabs_right v) by lra. cmp; lra.
Qed.

Lemma sqrt_between (lo hi x : R) :
  0 <= lo -> lo * lo < x -> x < hi * hi -> 0 <= hi -> lo < sqrt x < hi.
Proof.
  intros Hlo Hl Hh Hhi. split.
  - rewrite <- (sqrt_square lo) by exact Hlo.
    apply sqrt_lt_1_alt. split; [nra | exact Hl].
  - rewrite <- (sqrt_square hi) by exact Hhi.
    apply sqrt_lt_1_alt. split; [nra | exact Hh].
Qed.

(* ================================================================= *)
(** ** The concrete scenarios of the 640 by 480 frame *)

(** C6: in a 640 by 480 frame with vertical-only pacing, (150, 70) is
    [WIDE_LEFT] with balance exactly -1; the centre (320, 240) is [BULLS]
    with balance 0 and distance 0; and (400, 240), which has no vertical
    offset, is [TRACK] with balance
    [sqrt ((0.25 - 0.06) * (0.5 / 0.44) * (1 / 0.5))], about 0.657. *)
Theorem process_circle_scenarios :
  (exists volume distance,
     process_circle gen640 (150, 70)%Z = ret (-1, volume, distance, WIDE_LEFT))
  /\ (exists volume,
        process_circle gen640 (320, 240)%Z = ret (0, volume, 0, BULLS)
        /\ Rabs (IZR 240 - IZR 480 / 2) = 0)
  /\ (exists balance volume,
        process_circle gen640 (400, 240)%Z = ret (balance, volume, 0, TRACK)
        /\ balance = sqrt ((0.25 - 0.06) * (0.5 / 0.44) * (1 / 0.5))
        /\ 0.657 < balance < 0.658).
Proof.
  assert (Hc : Rabs (IZR 240 - IZR 480 / 2) = 0).
  { replace (IZR 240 - IZR 480 / 2) with 0 by lra. apply Rabs_R0. }
  split; [| split].
  - destruct (@process_circle_ok gen640 (150, 70)%Z gen640_well_formed)
      as (dfc & d & Heq & _).
    cbn [gen640 boundaries fst snd] in Heq.
    assert (Hb : shapeBalance (rawBalance 640 150) = -1).
    { apply shapeBalance_saturated_left.
      unfold rawBalance, balanceThreshold. lra. }
    rewrite Hb in Heq. rewrite Heq. do 2 eexists. do 2 f_equal.
    unfold classify. cmp; first [reflexivity | lra].
  - destruct (@process_circle_ok gen640 (320, 240)%Z gen640_well_formed)
      as (dfc & d & Heq & _ & _ & Hdz & Hv).
    cbn [gen640 boundaries fst snd ONLY_VERT_PACING] in Heq, Hv.
    specialize (Hv eq_refl). rewrite Hc in Hv. subst dfc.
    rewrite (Hdz eq_refl) in Heq.
    assert (Hb : shapeBalance (rawBalance 640 320) = 0).
    { apply shapeBalance_deadzone.
      replace (rawBalance 640 320) with 0 by (unfold rawBalance; lra).
      rewrite Rabs_R0. unfold centerDeadzone. lra. }
    rewrite Hb in Heq. rewrite Heq. eexists. split; [| exact Hc].
    do 2 f_equal. unfold classify. cbn [ONLY_VERT_PACING negb].
    rewrite Rabs_R0. unfold thresh_center. cmp; first [reflexivity | lra].
  - destruct (@process_circle_ok gen640 (400, 240)%Z gen640_well_formed)
      as (dfc & d & Heq & _ & _ & Hdz & Hv).
    cbn [gen640 boundaries fst snd ONLY_VERT_PACING] in Heq, Hv.
    specialize (Hv eq_refl). rewrite Hc in Hv. subst dfc.
    rewrite (Hdz eq_refl) in Heq.
    assert (Hraw : rawBalance 640 400 = 0.25) by (unfold rawBalance; lra).
    rewrite Hraw in Heq.
    assert (Hb : shapeBalance 0.25
                 = sqrt ((0.25 - 0.06) * (0.5 / 0.44) * (1 / 0.5))).
    { rewrite shapeBalance_curve_right
        by (unfold centerDeadzone, balanceThreshold; lra).
      f_equal. unfold rescale, centerDeadzone, balanceThreshold. lra. }
    assert (Hr : 0.657 < sqrt ((0.25 - 0.06) * (0.5 / 0.44) * (1 / 0.5))
                 < 0.658) by (apply sqrt_between; lra).
    rewrite Hb in Heq. rewrite Heq. do 2 eexists.
    split; [| split; [reflexivity | exact Hr]].
    do 2 f_equal. unfold classify. cbn [ONLY_VERT_PACING negb].
    set (b := sqrt ((0.25 - 0.06) * (0.5 / 0.44) * (1 / 0.5))) in *.
    rewrite (Rabs_right b) by lra. unfold thresh_center.
    cmp; first [reflexivity | lra].
Qed.

(* ================================================================= *)
(** ** Synthesis *)

Lemma pan_method_ok (a : AudioSegment) (pan_amount : R) :
  -1 <= pan_amount <= 1 ->
  pan_method (Some a) pan_amount = ret (Some (AudioSegment_pan a pan_amount)).
Proof.
  intros H. unfold pan_method. cmp; first [reflexivity | lra].
Qed.

Lemma pan_method_out_of_range (a : AudioSegment) (pan_amount : R) :
  pan_amount < -1 \/ 1 < pan_amount ->
  pan_method (Some a) pan_amount = raise ValueError.
Proof.
  intros H. unfold pan_method. cmp; first [reflexivity | lra].
Qed.

(** C7: for [TRACK] and a balance within [-1, 1], [generate_sound]
    returns a buffer of exactly two tones at [center_freq]: the blip of
    [cycle_time_blip] (40 ms) at the given volume, then a silent stretch
    (volume -9999) that lasts [(cycle_time_max - cycle_time_blip)] times
    the square of its [dist_from_center] argument; both are panned at
    [balance]. *)
Theorem generate_sound_track (balance volume dist_from_center : R) :
  -1 <= balance <= 1 ->
  generate_sound balance volume dist_from_center TRACK
  = ret (Some [ {| toneHz := center_freq;
                   durationMs := cycle_time_blip;
                   volumeDb := volume;
                   pan := balance |};
                {| toneHz := center_freq;
                   durationMs := (cycle_time_max - cycle_time_blip)
                                 * (dist_from_center * dist_from_center);
                   volumeDb := -9999;
                   pan := balance |} ])
  /\ center_freq = 440%Z /\ cycle_time_blip = 40 /\ cycle_time_max = 1000.
Proof.
  intros Hb. split; [| repeat split].
  unfold generate_sound, generate_beeps. cbn [Classification_is].
  rewrite math_pow_2. cbn [bind ret].
  rewrite pan_method_ok by exact Hb. reflexivity.
Qed.

(** A target to the right of the centre, at half the scaled distance. *)
Lemma generate_sound_track_witness :
  generate_sound 0.5 (-8) 0.5 TRACK
  = ret (Some [ {| toneHz := center_freq;
                   durationMs := cycle_time_blip;
                   volumeDb := -8;
                   pan := 0.5 |};
                {| toneHz := center_freq;
                   durationMs := (cycle_time_max - cycle_time_blip)
                                 * (0.5 * 0.5);
                   volumeDb := -9999;
                   pan := 0.5 |} ])
  /\ center_freq = 440%Z /\ cycle_time_blip = 40 /\ cycle_time_max = 1000.
Proof.
  apply (@generate_sound_track 0.5 (-8) 0.5). lra.
Defined.

(** Outside [-1, 1] the pan is refused, and with it the buffer. *)
Lemma track_pan_out_of_range (balance volume d : R) :
  balance < -1 \/ 1 < balance ->
  generate_sound balance volume d TRACK = raise ValueError.
Proof.
  intros Hb. unfold generate_sound, generate_beeps. cbn [Classification_is].
  rewrite math_pow_2. cbn [bind ret].
  apply pan_method_out_of_range. exact Hb.
Qed.

(* ================================================================= *)
(** ** The range sensor *)

Ltac after_read_cases m :=
  destruct m as [[? ? ? ? ? ? l] [? ? p]];
  unfold after_read; cbn [self os lidar port];
  destruct l; [destruct p as [[| ? ?] |] |].

Lemma after_read_view (m : Machine) :
  playback_view (after_read m) = playback_view m
  /\ lidar (self (after_read m)) = lidar (self m).
Proof. after_read_cases m; split; reflexivity. Qed.

Lemma after_read_self (m : Machine) : self (after_read m) = self m.
Proof. after_read_cases m; reflexivity. Qed.

Lemma after_read_trace (m : Machine) :
  trace (os (after_read m)) = trace (os m).
Proof. after_read_cases m; reflexivity. Qed.

Lemma after_read_next_pid (m : Machine) :
  next_pid (os (after_read m)) = next_pid (os m).
Proof. after_read_cases m; reflexivity. Qed.

Lemma get_range_spec (m : Machine) :
  get_range m
  = (ret (match reading_attempt m with
          | inr z => z
          | inl _ => (-1)%Z
          end),
     after_read m).
Proof.
  destruct m as [[vp bd md pp pt ec l] [np tr p]].
  unfold get_range, try_except, mbind, get_self, lift, Serial_read,
    reading_attempt, after_read, parse_reading, mret.
  cbn [self os fst snd lidar port ret raise bind next_pid trace].
  destruct l as [dev |]; [| reflexivity].
  destruct p as [[| r rs] |]; cbn [ret raise bind].
  - destruct (index _ 2) as [e | item]; cbn [bind]; [reflexivity |].
    destruct (py_int item); reflexivity.
  - destruct r as [e | data]; cbn [bind ret]; [reflexivity |].
    destruct (index _ 2) as [e | item]; cbn [bind]; [reflexivity |].
    destruct (py_int item); reflexivity.
  - reflexivity.
Qed.

(* ================================================================= *)
(** ** Laws of the monad of methods *)

Lemma mbind_ok {A B} (c : M A) (k : A -> M B) (a : A) (m m1 : Machine) :
  c m = (ret a, m1) -> mbind c k m = k a m1.
Proof. intros H. unfold mbind. rewrite H. reflexivity. Qed.

Lemma mbind_lift_ok {A B} (r : Res A) (k : A -> M B) (a : A) (m : Machine) :
  r = ret a -> mbind (lift r) k m = k a m.
Proof. intros ->. reflexivity. Qed.

Lemma mbind_lift_raise {A B} (r : Res A) (k : A -> M B) (e : exn)
    (m : Machine) :
  r = raise e -> mbind (lift r) k m = (raise e, m).
Proof. intros ->. reflexivity. Qed.

Lemma mbind_get_self {B} (k : AudioGenerator -> M B) (m : Machine) :
  mbind get_self k m = k (self m) m.
Proof. reflexivity. Qed.

(* ================================================================= *)
(** ** One cycle of [run] *)

(** Every call of [run] starts alike: the sensor is asked, the reading is
    scaled for the console, and [self] is read. *)
Ltac run_begin m :=
  unfold run;
  erewrite mbind_ok by apply get_range_spec;
  erewrite mbind_lift_ok by (apply py_div_ok; lra);
  rewrite mbind_get_self, after_read_self.

Lemma kill_process_spec (p : option pid) (m : Machine) :
  kill_process p m
  = (ret tt,
     {| self := self m;
        os := {| next_pid := next_pid (os m);
                 trace := trace (os m) ++ kill_events p;
                 port := port (os m) |} |}).
Proof.
  destruct m as [s [np tr pt]]. destruct p as [p |].
  - unfold kill_process, mbind, try_except, emit, mret, kill_events.
    cbn [self os next_pid trace port ret].
    rewrite <- app_assoc. reflexivity.
  - unfold kill_process, mret, kill_events. cbn [self os next_pid trace port].
    rewrite app_nil_r. reflexivity.
Qed.

(** A cycle without a target: the count goes up by one, and when it had
    already reached [error_limit] the playback is stopped and forgotten. *)
Lemma run_sentinel_view (m : Machine) :
  exists m',
    run sentinel m = (ret tt, m')
    /\ lidar (self m') = lidar (self m)
    /\ playback_view m'
       = if (error_limit <=? error_cycles (self m))%Z
         then (ONLY_VERT_PACING (self m), boundaries (self m),
               max_displacement (self m), None, NONE,
               (error_cycles (self m) + 1)%Z, next_pid (os m),
               trace (os m) ++ kill_events (prev_pid (self m)))
         else (ONLY_VERT_PACING (self m), boundaries (self m),
               max_displacement (self m), prev_pid (self m),
               prev_type (self m),
               (error_cycles (self m) + 1)%Z, next_pid (os m),
               trace (os m)).
Proof.
  run_begin m. cbn [sentinel fst snd Z.eqb andb].
  rewrite Z.geb_leb.
  pose proof (after_read_self m) as Hs.
  pose proof (after_read_trace m) as Ht.
  pose proof (after_read_next_pid m) as Hn.
  destruct (after_read m) as [s1 w1]. cbn [self os] in *. subst s1.
  destruct (error_limit <=? error_cycles (self m))%Z.
  - erewrite mbind_ok by apply kill_process_spec.
    eexists. split; [reflexivity |].
    unfold playback_view.
    cbn [self os next_pid trace port ONLY_VERT_PACING boundaries
         max_displacement prev_pid prev_type error_cycles lidar].
    rewrite Ht, Hn. split; reflexivity.
  - eexists. split; [reflexivity |].
    unfold playback_view.
    cbn [self os next_pid trace port ONLY_VERT_PACING boundaries
         max_displacement prev_pid prev_type error_cycles lidar
         set_error_cycles snd].
    rewrite Ht, Hn. split; reflexivity.
Qed.

Lemma process_circle_classify (s : AudioGenerator) (circle : Z * Z)
    (b v d : R) (c : Classification) :
  process_circle s circle = ret (b, v, d, c) ->
  exists dfc, c = classify s b v dfc.
Proof.
  unfold process_circle. intros H.
  repeat match type of H with
    | context [bind ?x _] =>
        destruct x; cbn [bind] in H; [discriminate H |]
    end.
  injection H as <- <- <- <-. eexists. reflexivity.
Qed.

Lemma process_circle_not_NONE (s : AudioGenerator) (circle : Z * Z)
    (b v d : R) (c : Classification) :
  process_circle s circle = ret (b, v, d, c) -> c <> NONE.
Proof.
  intros H. destruct (process_circle_classify _ _ H) as (dfc & ->).
  apply classify_not_NONE.
Qed.

Lemma process_circle_balance (s : AudioGenerator) (circle : Z * Z)
    (b v d : R) (c : Classification) :
  process_circle s circle = ret (b, v, d, c) -> -1 <= b <= 1.
Proof.
  unfold process_circle. intros H.
  repeat match type of H with
    | context [get_balance ?x] =>
        rewrite (get_balance_value x) in H; cbn [bind ret] in H
    | context [bind ?x _] =>
        destruct x; cbn [bind] in H; [discriminate H |]
    end.
  injection H as <- _ _ _. apply shapeBalance_range.
Qed.

Lemma generate_sound_ok (b v d : R) (c : Classification) :
  c <> NONE -> -1 <= b <= 1 ->
  exists a, generate_sound b v d c = ret (Some a).
Proof.
  intros Hc Hb. unfold generate_sound, generate_beeps.
  destruct c; cbn [Classification_is bind ret].
  - rewrite pan_method_ok by lra. eexists. reflexivity.
  - rewrite pan_method_ok by lra. eexists. reflexivity.
  - rewrite math_pow_2. cbn [bind ret].
    rewrite pan_method_ok by exact Hb. eexists. reflexivity.
  - rewrite py_div_ok by lra. cbn [bind ret]. eexists. reflexivity.
  - contradiction Hc. reflexivity.
Qed.

Lemma run_raises (m : Machine) (circle : Z * Z) (e : exn) :
  (fst circle =? 0)%Z && (snd circle =? 0)%Z = false ->
  process_circle (self m) circle = raise e ->
  run circle m = (raise e, after_read m).
Proof.
  intros Hc Hp. run_begin m. rewrite Hc.
  erewrite mbind_lift_raise by exact Hp. reflexivity.
Qed.

Lemma run_suppressed (m : Machine) (circle : Z * Z) (b v d : R)
    (c : Classification) :
  (fst circle =? 0)%Z && (snd circle =? 0)%Z = false ->
  process_circle (self m) circle = ret (b, v, d, c) ->
  negb (Classification_is c TRACK)
  && Classification_is c (prev_type (self m)) = true ->
  run circle m = (ret tt, after_read m).
Proof.
  intros Hc Hp Hs. run_begin m. rewrite Hc.
  erewrite mbind_lift_ok by exact Hp. cbv beta iota.
  rewrite Hs. reflexivity.
Qed.

Lemma spawn_play_spec (sound : AudioSegment) (d : R) (c : Classification)
    (m : Machine) :
  exists m',
    spawn_play sound d c m = (ret tt, m')
    /\ playback_view m'
       = (ONLY_VERT_PACING (self m), boundaries (self m),
          max_displacement (self m),
          Some (next_pid (os m)), prev_type (self m), error_cycles (self m),
          S (next_pid (os m)),
          trace (os m)
          ++ Start (next_pid (os m)) sound d c
             :: kill_events (prev_pid (self m)))
    /\ lidar (self m') = lidar (self m).
Proof.
  destruct m as [[vp bd md pp pt ec l] [np tr p]].
  unfold spawn_play.
  erewrite mbind_ok by (unfold Process_start; reflexivity).
  cbn [self os next_pid trace port].
  rewrite mbind_get_self. cbn [self prev_pid].
  erewrite mbind_ok by apply kill_process_spec.
  cbn [self os next_pid trace port].
  eexists. split; [reflexivity |].
  unfold playback_view.
  cbn [self os next_pid trace port ONLY_VERT_PACING boundaries
       max_displacement prev_pid prev_type error_cycles lidar].
  rewrite <- app_assoc. split; reflexivity.
Qed.

Lemma run_spawns (m : Machine) (circle : Z * Z) (b v d : R)
    (c : Classification) :
  (fst circle =? 0)%Z && (snd circle =? 0)%Z = false ->
  process_circle (self m) circle = ret (b, v, d, c) ->
  negb (Classification_is c TRACK)
  && Classification_is c (prev_type (self m)) = false ->
  exists audio m',
    generate_sound b v d c = ret (Some audio)
    /\ run circle m = (ret tt, m')
    /\ playback_view m'
       = (ONLY_VERT_PACING (self m), boundaries (self m),
          max_displacement (self m),
          Some (next_pid (os m)), c, 0%Z, S (next_pid (os m)),
          trace (os m)
          ++ Start (next_pid (os m))
               (Nat.iter 10 (fun s => s ++ s) audio) d c
             :: kill_events (prev_pid (self m)))
    /\ lidar (self m') = lidar (self m).
Proof.
  intros Hc Hp Hs.
  destruct (@generate_sound_ok b v d c (process_circle_not_NONE _ _ Hp)
              (process_circle_balance _ _ Hp))
    as (audio & Hg).
  exists audio. run_begin m. rewrite Hc.
  erewrite mbind_lift_ok by exact Hp. cbv beta iota.
  rewrite Hs.
  erewrite mbind_lift_ok by exact Hg.
  erewrite mbind_lift_ok by reflexivity.
  destruct (@spawn_play_spec (Nat.iter 10 (fun s => s ++ s) audio) d c
              (after_read m)) as (m1 & Hsp & Hv & Hl).
  erewrite mbind_ok by exact Hsp.
  rewrite after_read_self, after_read_trace, after_read_next_pid in Hv.
  rewrite after_read_self in Hl.
  destruct m1 as [[vp bd md pp pt ec l] [np tr p]].
  unfold playback_view in Hv.
  cbn [self os next_pid trace port ONLY_VERT_PACING boundaries
       max_displacement prev_pid prev_type error_cycles lidar] in Hv, Hl.
  injection Hv as -> -> -> -> -> -> -> ->.
  eexists. split; [exact Hg | split; [reflexivity |]].
  split; [reflexivity | exact Hl].
Qed.

(* ================================================================= *)
(** ** Streaks of cycles without a target *)

Lemma cycles_app (l1 l2 : list (Z * Z)) (m : Machine) :
  cycles (l1 ++ l2) m = mbind (cycles l1) (fun _ => cycles l2) m.
Proof.
  revert m. induction l1 as [| c l1 IH]; intros m.
  - reflexivity.
  - cbn [app cycles]. unfold mbind.
    destruct (run c m) as [[e | []] m1]; [reflexivity |].
    rewrite IH. reflexivity.
Qed.

(** Destructure a machine whose playback view is known. *)
Ltac known_view m H :=
  destruct m as [[? ? ? ? ? ? ?] [? ? ?]];
  unfold playback_view in H;
  cbn [self os next_pid trace port ONLY_VERT_PACING boundaries
       max_displacement prev_pid prev_type error_cycles lidar] in *;
  injection H as -> -> -> -> -> -> -> ->.

(** While the count stays within [error_limit], cycles without a target
    only count. *)
Lemma sentinel_streak (n : nat) (m : Machine) :
  (error_cycles (self m) + Z.of_nat n <= error_limit)%Z ->
  exists m',
    cycles (repeat sentinel n) m = (ret tt, m')
    /\ lidar (self m') = lidar (self m)
    /\ playback_view m'
       = (ONLY_VERT_PACING (self m), boundaries (self m),
          max_displacement (self m), prev_pid (self m), prev_type (self m),
          (error_cycles (self m) + Z.of_nat n)%Z, next_pid (os m),
          trace (os m)).
Proof.
  revert m. induction n as [| n IH]; intros m Hle.
  - exists m. split; [reflexivity | split; [reflexivity |]].
    unfold playback_view. rewrite Z.add_0_r. reflexivity.
  - destruct (run_sentinel_view m) as (m1 & Hrun & Hl1 & Hv1).
    destruct (Z.leb_spec error_limit (error_cycles (self m))); [lia |].
    destruct (IH m1) as (m2 & Hcyc & Hl2 & Hv2).
    { known_view m1 Hv1. lia. }
    exists m2. cbn [repeat cycles].
    erewrite mbind_ok by exact Hrun.
    split; [exact Hcyc | split; [congruence |]].
    rewrite Hv2. known_view m1 Hv1. do 2 f_equal. f_equal. lia.
Qed.

(** The cycle that follows a count of [error_limit] stops the playback. *)
Lemma sentinel_streak_kills (m : Machine) :
  (error_cycles (self m) <= error_limit)%Z ->
  exists m',
    cycles (repeat sentinel
              (S (Z.to_nat (error_limit - error_cycles (self m))))) m
    = (ret tt, m')
    /\ lidar (self m') = lidar (self m)
    /\ playback_view m'
       = (ONLY_VERT_PACING (self m), boundaries (self m),
          max_displacement (self m), None, NONE,
          (error_limit + 1)%Z, next_pid (os m),
          trace (os m) ++ kill_events (prev_pid (self m))).
Proof.
  intros Hle.
  set (n := Z.to_nat (error_limit - error_cycles (self m))).
  assert (Hn : (error_cycles (self m) + Z.of_nat n = error_limit)%Z)
    by (unfold n; lia).
  destruct (@sentinel_streak n m) as (m1 & Hcyc & Hl1 & Hv1); [lia |].
  destruct (run_sentinel_view m1) as (m2 & Hrun & Hl2 & Hv2).
  exists m2.
  change (repeat sentinel (S n)) with (sentinel :: repeat sentinel n).
  rewrite repeat_cons, cycles_app.
  erewrite mbind_ok by exact Hcyc.
  cbn [cycles]. erewrite mbind_ok by exact Hrun.
  split; [reflexivity | split; [congruence |]].
  rewrite Hv2. known_view m1 Hv1. rewrite Hn, Z.leb_refl. reflexivity.
Qed.

(* ================================================================= *)
(** ** The replay-suppression rule *)

Lemma suppress_iff (c pt : Classification) :
  negb (Classification_is c TRACK) && Classification_is c pt = true
  <-> c = pt /\ c <> TRACK.
Proof.
  destruct c, pt; cbn [Classification_is negb andb]; split;
    try discriminate; try (intros [H1 H2]; congruence);
    intros _; split; try reflexivity; discriminate.
Qed.

Lemma not_sentinel (circle : Z * Z) :
  circle <> sentinel ->
  (fst circle =? 0)%Z && (snd circle =? 0)%Z = false.
Proof.
  destruct circle as [x y]. unfold sentinel. cbn [fst snd]. intros Hne.
  destruct (Z.eqb_spec x 0) as [-> |]; [| reflexivity].
  destruct (Z.eqb_spec y 0) as [-> |]; [| reflexivity].
  contradiction Hne. reflexivity.
Qed.

Lemma is_sentinel (circle : Z * Z) :
  (fst circle =? 0)%Z && (snd circle =? 0)%Z = true -> circle = sentinel.
Proof.
  destruct circle as [x y]. unfold sentinel. cbn [fst snd]. intros H.
  apply andb_true_iff in H as [Hx Hy].
  apply Z.eqb_eq in Hx, Hy. subst. reflexivity.
Qed.

Lemma starts_after_spawn (t : list event) (p : pid) (a : AudioSegment)
    (d : R) (c : Classification) (old : option pid) :
  List.length (filter is_Start (t ++ Start p a d c :: kill_events old))
  = S (List.length (filter is_Start t)).
Proof.
  rewrite filter_app, length_app.
  destruct old; cbn [kill_events filter is_Start List.length]; lia.
Qed.

(** C1: a cycle with a valid position in a well-formed frame returns.  If
    the classification equals [prev_type] and is not [TRACK], no task is
    started, nothing is asked of the system, and [prev_pid], [prev_type]
    and [error_cycles] are as before.  In every other case exactly one task
    is started, its handle is recorded, [prev_type] becomes the new
    classification and [error_cycles] is 0. *)
Theorem run_valid_position (m : Machine) (circle : Z * Z) :
  well_formed (self m) -> circle <> sentinel ->
  exists b v d c m',
    process_circle (self m) circle = ret (b, v, d, c)
    /\ run circle m = (ret tt, m')
    /\ (c = prev_type (self m) /\ c <> TRACK ->
        spawned m' = spawned m
        /\ trace (os m') = trace (os m)
        /\ prev_pid (self m') = prev_pid (self m)
        /\ prev_type (self m') = prev_type (self m)
        /\ error_cycles (self m') = error_cycles (self m))
    /\ (~ (c = prev_type (self m) /\ c <> TRACK) ->
        spawned m' = S (spawned m)
        /\ prev_pid (self m') = Some (next_pid (os m))
        /\ prev_type (self m') = c
        /\ error_cycles (self m') = 0%Z).
Proof.
  intros Hwf Hne. apply not_sentinel in Hne.
  destruct (@process_circle_ok (self m) circle Hwf) as (dfc & d & Hp & _).
  match type of Hp with
  | _ = ret (?b0, ?v0, _, ?c0) =>
      set (b := b0) in *; set (v := v0) in *; set (c := c0) in *
  end.
  exists b, v, d, c.
  destruct (negb (Classification_is c TRACK)
            && Classification_is c (prev_type (self m))) eqn:Hs.
  - exists (after_read m).
    split; [exact Hp | split; [exact (run_suppressed _ _ Hne Hp Hs) |]].
    split.
    + intros _. unfold spawned.
      rewrite after_read_trace, after_read_self. repeat split; reflexivity.
    + intros Hn. apply suppress_iff in Hs. contradiction.
  - destruct (run_spawns _ _ Hne Hp Hs) as (audio & m' & _ & Hrun & Hv & _).
    exists m'. split; [exact Hp | split; [exact Hrun |]].
    split.
    + intros Hy. apply suppress_iff in Hy. congruence.
    + intros _. unfold spawned. known_view m' Hv.
      rewrite starts_after_spawn. repeat split; reflexivity.
Qed.

(** A supervisor playing [WIDE_LEFT] that sees the target at (400, 240). *)
Lemma run_valid_position_witness :
  exists b v d c m',
    process_circle (self (playing_left 3)) (400, 240)%Z = ret (b, v, d, c)
    /\ run (400, 240)%Z (playing_left 3) = (ret tt, m')
    /\ (c = prev_type (self (playing_left 3)) /\ c <> TRACK ->
        spawned m' = spawned (playing_left 3)
        /\ trace (os m') = trace (os (playing_left 3))
        /\ prev_pid (self m') = prev_pid (self (playing_left 3))
        /\ prev_type (self m') = prev_type (self (playing_left 3))
        /\ error_cycles (self m') = error_cycles (self (playing_left 3)))
    /\ (~ (c = prev_type (self (playing_left 3)) /\ c <> TRACK) ->
        spawned m' = S (spawned (playing_left 3))
        /\ prev_pid (self m') = Some (next_pid (os (playing_left 3)))
        /\ prev_type (self m') = c
        /\ error_cycles (self m') = 0%Z).
Proof.
  apply (@run_valid_position (playing_left 3) (400, 240)%Z).
  - unfold well_formed, playing_left.
    cbn [self boundaries max_displacement fst snd].
    repeat split; try lia. apply sqrt_lt_R0. lra.
  - unfold sentinel. discriminate.
Defined.

(* ================================================================= *)
(** ** Detection loss *)

(** C2, as the code has it: from a state with an active task and a count
    of 0, any run of at most [error_limit] (10) cycles without a target
    leaves the task, its handle and [prev_type] untouched and asks nothing
    of the system, while the count goes up by one each cycle; the cycle
    after that, the eleventh, stops the task, clears the handle and sets
    [prev_type] to [NONE]. *)
Theorem detection_loss_debounce (m : Machine) (p : pid) :
  prev_pid (self m) = Some p -> error_cycles (self m) = 0%Z ->
  (forall n, (n <= Z.to_nat error_limit)%nat ->
     exists m',
       cycles (repeat sentinel n) m = (ret tt, m')
       /\ prev_pid (self m') = Some p
       /\ prev_type (self m') = prev_type (self m)
       /\ error_cycles (self m') = Z.of_nat n
       /\ trace (os m') = trace (os m))
  /\ (exists m',
        cycles (repeat sentinel (S (Z.to_nat error_limit))) m = (ret tt, m')
        /\ prev_pid (self m') = None
        /\ prev_type (self m') = NONE
        /\ error_cycles (self m') = (error_limit + 1)%Z
        /\ trace (os m') = trace (os m) ++ [Sleep sleep_time; Kill p 1])
  /\ Z.to_nat error_limit = 10%nat.
Proof.
  intros Hp He. split; [| split; [| reflexivity]].
  - intros n Hn.
    destruct (@sentinel_streak n m) as (m' & Hcyc & _ & Hv).
    { rewrite He. unfold error_limit in *. lia. }
    exists m'. split; [exact Hcyc |]. known_view m' Hv.
    rewrite He, Hp. repeat split; reflexivity.
  - destruct (@sentinel_streak_kills m) as (m' & Hcyc & _ & Hv).
    { rewrite He. unfold error_limit. lia. }
    rewrite He, Z.sub_0_r in Hcyc.
    exists m'. split; [exact Hcyc |]. known_view m' Hv.
    rewrite Hp. repeat split; reflexivity.
Qed.

Lemma detection_loss_debounce_witness :
  (forall n, (n <= Z.to_nat error_limit)%nat ->
     exists m',
       cycles (repeat sentinel n) (playing_left 0) = (ret tt, m')
       /\ prev_pid (self m') = Some 100%nat
       /\ prev_type (self m') = prev_type (self (playing_left 0))
       /\ error_cycles (self m') = Z.of_nat n
       /\ trace (os m') = trace (os (playing_left 0)))
  /\ (exists m',
        cycles (repeat sentinel (S (Z.to_nat error_limit))) (playing_left 0)
        = (ret tt, m')
        /\ prev_pid (self m') = None
        /\ prev_type (self m') = NONE
        /\ error_cycles (self m') = (error_limit + 1)%Z
        /\ trace (os m')
           = trace (os (playing_left 0)) ++ [Sleep sleep_time; Kill 100%nat 1])
  /\ Z.to_nat error_limit = 10%nat.
Proof.
  apply (@detection_loss_debounce (playing_left 0) 100%nat); reflexivity.
Defined.

(** C2 as stated fails: after the tenth cycle without a target in a row
    the [WIDE_LEFT] playback is still the active one, and nothing has been
    asked of the system. *)
Lemma tenth_sentinel_keeps_playing :
  exists m',
    cycles (repeat sentinel 10) (playing_left 0) = (ret tt, m')
    /\ prev_pid (self m') = Some 100%nat
    /\ prev_type (self m') = WIDE_LEFT
    /\ prev_type (self m') <> NONE
    /\ trace (os m') = [].
Proof.
  destruct (@sentinel_streak 10 (playing_left 0)) as (m' & Hcyc & _ & Hv).
  { unfold playing_left, error_limit. cbn [self error_cycles]. lia. }
  exists m'. split; [exact Hcyc |]. known_view m' Hv.
  repeat split; try reflexivity. discriminate.
Qed.

(* ================================================================= *)
(** ** Handle and classification *)

Lemma init_idle (b : Z * Z) (w : World) (m : Machine) :
  __init__ b w = ret m ->
  prev_pid (self m) = None /\ prev_type (self m) = NONE.
Proof.
  unfold __init__. intros H.
  repeat match type of H with
    | context [bind ?x _] =>
        destruct x; cbn [bind] in H; [discriminate H |]
    end.
  injection H as <-. split; reflexivity.
Qed.

Lemma run_keeps_idle_invariant (m m' : Machine) (circle : Z * Z)
    (r : Res unit) :
  (prev_type (self m) = NONE -> prev_pid (self m) = None) ->
  run circle m = (r, m') ->
  prev_type (self m') = NONE -> prev_pid (self m') = None.
Proof.
  intros Hinv Hrun.
  destruct ((fst circle =? 0)%Z && (snd circle =? 0)%Z) eqn:Hc.
  - apply is_sentinel in Hc. subst circle.
    destruct (run_sentinel_view m) as (m1 & Hrun1 & _ & Hv).
    rewrite Hrun1 in Hrun. injection Hrun as <- <-.
    destruct (error_limit <=? error_cycles (self m))%Z;
      known_view m1 Hv; [reflexivity | exact Hinv].
  - destruct (process_circle (self m) circle)
      as [e | [[[b v] d] c]] eqn:Hp.
    + rewrite (run_raises _ _ Hc Hp) in Hrun. injection Hrun as <- <-.
      rewrite after_read_self. exact Hinv.
    + destruct (negb (Classification_is c TRACK)
                && Classification_is c (prev_type (self m))) eqn:Hs.
      * rewrite (run_suppressed _ _ Hc Hp Hs) in Hrun.
        injection Hrun as <- <-. rewrite after_read_self. exact Hinv.
      * destruct (run_spawns _ _ Hc Hp Hs) as (a & m1 & _ & Hrun1 & Hv & _).
        rewrite Hrun1 in Hrun. injection Hrun as <- <-.
        known_view m1 Hv. intros ->.
        contradiction (process_circle_not_NONE _ _ Hp). reflexivity.
Qed.

(** C9: in every state reachable from construction by calls of [run],
    returning or not, a [prev_type] of [NONE] comes with a [prev_pid] of
    [None]. *)
Theorem idle_has_no_handle (m : Machine) :
  reachable m -> prev_type (self m) = NONE -> prev_pid (self m) = None.
Proof.
  intros Hr. induction Hr as [b w m Hinit | m m' circle r Hr IH Hrun].
  - intros _. apply (init_idle _ _ Hinit).
  - exact (@run_keeps_idle_invariant m m' circle r IH Hrun).
Qed.

(* ================================================================= *)
(** ** The count of losses across a suppressed cycle *)

Lemma classification_of_ret (s : AudioGenerator) (circle : Z * Z)
    (c : Classification) :
  classification_of s circle = Some c ->
  exists b v d, process_circle s circle = ret (b, v, d, c).
Proof.
  unfold classification_of.
  destruct (process_circle s circle) as [e | [[[b v] d] c']];
    [discriminate |].
  intros H. injection H as ->. exists b, v, d. reflexivity.
Qed.

(** In a frame 640 wide the position (150, 70) is far left in either
    mode. *)
Lemma wide_left_150 (s : AudioGenerator) :
  well_formed s -> fst (boundaries s) = 640%Z ->
  classification_of s (150, 70)%Z = Some WIDE_LEFT.
Proof.
  intros Hwf Hw.
  destruct (@process_circle_ok s (150, 70)%Z Hwf) as (dfc & d & Heq & _).
  rewrite Hw in Heq. cbn [fst] in Heq.
  assert (Hb : shapeBalance (rawBalance 640 150) = -1).
  { apply shapeBalance_saturated_left.
    unfold rawBalance, balanceThreshold. lra. }
  rewrite Hb in Heq. unfold classification_of. rewrite Heq.
  f_equal. unfold classify. cmp; first [reflexivity | lra].
Qed.

(** C10: a cycle whose valid position classifies as [prev_type], not
    [TRACK], returns and leaves every field of the object and every
    process as they were; [error_cycles] in particular is not reset.  The
    cycles without a target that follow are counted on from the old value:
    with a count of [k] before the detection, playback stops at cycle
    [error_limit - k + 1] of the streak, not at cycle [error_limit + 1]. *)
Theorem suppressed_cycle_keeps_count (m : Machine) (circle : Z * Z)
    (c : Classification) :
  circle <> sentinel ->
  classification_of (self m) circle = Some c ->
  c = prev_type (self m) -> c <> TRACK ->
  (error_cycles (self m) <= error_limit)%Z ->
  (exists m',
     run circle m = (ret tt, m')
     /\ self m' = self m
     /\ error_cycles (self m') = error_cycles (self m)
     /\ trace (os m') = trace (os m)
     /\ next_pid (os m') = next_pid (os m))
  /\ (exists m'',
        cycles (circle
                :: repeat sentinel
                     (S (Z.to_nat (error_limit - error_cycles (self m))))) m
        = (ret tt, m'')
        /\ prev_pid (self m'') = None
        /\ prev_type (self m'') = NONE
        /\ trace (os m'') = trace (os m) ++ kill_events (prev_pid (self m))).
Proof.
  intros Hne Hc Hprev Htrack Hle. apply not_sentinel in Hne.
  destruct (classification_of_ret _ _ Hc) as (b & v & d & Hp).
  assert (Hs : negb (Classification_is c TRACK)
               && Classification_is c (prev_type (self m)) = true)
    by (apply suppress_iff; split; assumption).
  pose proof (run_suppressed _ _ Hne Hp Hs) as Hrun.
  split.
  - exists (after_read m). split; [exact Hrun |].
    rewrite after_read_self, after_read_trace, after_read_next_pid.
    repeat split; reflexivity.
  - destruct (@sentinel_streak_kills (after_read m)) as (m2 & Hcyc & _ & Hv).
    { rewrite after_read_self. exact Hle. }
    rewrite after_read_self, after_read_trace, after_read_next_pid in Hv.
    rewrite after_read_self in Hcyc.
    exists m2. cbn [cycles]. erewrite mbind_ok by exact Hrun.
    split; [exact Hcyc |]. known_view m2 Hv. repeat split; reflexivity.
Qed.

(** Nine losses are on the count when the far-left target is seen again;
    two further losses then end the playback. *)
Lemma suppressed_cycle_keeps_count_witness :
  (exists m',
     run (150, 70)%Z (playing_left 9) = (ret tt, m')
     /\ self m' = self (playing_left 9)
     /\ error_cycles (self m') = error_cycles (self (playing_left 9))
     /\ trace (os m') = trace (os (playing_left 9))
     /\ next_pid (os m') = next_pid (os (playing_left 9)))
  /\ (exists m'',
        cycles ((150, 70)%Z
                :: repeat sentinel
                     (S (Z.to_nat
                           (error_limit
                            - error_cycles (self (playing_left 9))))))
          (playing_left 9)
        = (ret tt, m'')
        /\ prev_pid (self m'') = None
        /\ prev_type (self m'') = NONE
        /\ trace (os m'')
           = trace (os (playing_left 9))
             ++ kill_events (prev_pid (self (playing_left 9)))).
Proof.
  apply (@suppressed_cycle_keeps_count (playing_left 9) (150, 70)%Z
           WIDE_LEFT).
  - unfold sentinel. discriminate.
  - apply wide_left_150; [| reflexivity].
    unfold well_formed, playing_left.
    cbn [self boundaries max_displacement fst snd].
    repeat split; try lia. apply sqrt_lt_R0. lra.
  - reflexivity.
  - discriminate.
  - unfold playing_left, error_limit. cbn [self error_cycles]. lia.
Defined.

(* ================================================================= *)
(** ** The range reading *)

Lemma process_circle_config (s s' : AudioGenerator) (circle : Z * Z) :
  ONLY_VERT_PACING s = ONLY_VERT_PACING s' ->
  boundaries s = boundaries s' ->
  max_displacement s = max_displacement s' ->
  process_circle s circle = process_circle s' circle.
Proof.
  intros H1 H2 H3. unfold process_circle, get_distance, classify.
  rewrite H1, H2, H3. reflexivity.
Qed.

(** Two machines that agree on everything but the sensor behave alike
    over a cycle, whatever the sensor of each has to say. *)
Lemma run_ignores_sensor (m m2 : Machine) (circle : Z * Z) :
  playback_view m = playback_view m2 ->
  fst (run circle m) = fst (run circle m2)
  /\ playback_view (snd (run circle m)) = playback_view (snd (run circle m2)).
Proof.
  intros Hv.
  assert (Hv' := Hv). unfold playback_view in Hv'.
  injection Hv' as Hvp Hbd Hmd Hpp Hpt Hec Hnp Htr.
  destruct ((fst circle =? 0)%Z && (snd circle =? 0)%Z) eqn:Hc.
  - apply is_sentinel in Hc. subst circle.
    destruct (run_sentinel_view m) as (a & -> & _ & Ha).
    destruct (run_sentinel_view m2) as (a2 & -> & _ & Ha2).
    cbn [fst snd]. split; [reflexivity |].
    rewrite Ha, Ha2, Hvp, Hbd, Hmd, Hpp, Hpt, Hec, Hnp, Htr. reflexivity.
  - pose proof (@process_circle_config (self m) (self m2) circle Hvp Hbd Hmd)
      as Hcfg.
    destruct (process_circle (self m) circle)
      as [e | [[[b v] d] c]] eqn:Hp; symmetry in Hcfg.
    + rewrite (run_raises _ _ Hc Hp), (run_raises _ _ Hc Hcfg).
      cbn [fst snd]. split; [reflexivity |].
      rewrite (proj1 (after_read_view m)), (proj1 (after_read_view m2)).
      exact Hv.
    + destruct (negb (Classification_is c TRACK)
                && Classification_is c (prev_type (self m))) eqn:Hs.
      * rewrite (run_suppressed _ _ Hc Hp Hs).
        rewrite Hpt in Hs. rewrite (run_suppressed _ _ Hc Hcfg Hs).
        cbn [fst snd]. split; [reflexivity |].
        rewrite (proj1 (after_read_view m)), (proj1 (after_read_view m2)).
        exact Hv.
      * destruct (run_spawns _ _ Hc Hp Hs) as (a & m' & Hg & -> & Ha & _).
        rewrite Hpt in Hs.
        destruct (run_spawns _ _ Hc Hcfg Hs)
          as (a2 & m2' & Hg2 & -> & Ha2 & _).
        rewrite Hg in Hg2. injection Hg2 as <-.
        cbn [fst snd]. split; [reflexivity |].
        rewrite Ha, Ha2, Hvp, Hbd, Hmd, Hpp, Hnp, Htr. reflexivity.
Qed.

(** C8: [get_range] always returns: the integer parsed from the received
    bytes, or -1 whenever the attempt fails, be it for an absent sensor,
    a failed read or bytes that do not parse, with no trace of which it
    was; asking changes nothing that playback depends on.  And [run] does
    not use the reading: machines that differ only in their sensor give
    the same result and the same playback state. *)
Theorem get_range_never_raises (m m2 : Machine) (circle : Z * Z) :
  playback_view m = playback_view m2 ->
  get_range m
  = (ret (match reading_attempt m with
          | inr z => z
          | inl _ => (-1)%Z
          end),
     after_read m)
  /\ playback_view (after_read m) = playback_view m
  /\ fst (run circle m) = fst (run circle m2)
  /\ playback_view (snd (run circle m)) = playback_view (snd (run circle m2)).
Proof.
  intros Hv.
  split; [apply get_range_spec |].
  split; [apply after_read_view |].
  apply run_ignores_sensor. exact Hv.
Qed.

(** A machine whose sensor delivers readings beside one without sensor. *)
Lemma get_range_never_raises_witness :
  get_range (with_sensor [ret three_readings])
  = (ret (match reading_attempt (with_sensor [ret three_readings]) with
          | inr z => z
          | inl _ => (-1)%Z
          end),
     after_read (with_sensor [ret three_readings]))
  /\ playback_view (after_read (with_sensor [ret three_readings]))
     = playback_view (with_sensor [ret three_readings])
  /\ fst (run (150, 70)%Z (with_sensor [ret three_readings]))
     = fst (run (150, 70)%Z init640)
  /\ playback_view (snd (run (150, 70)%Z (with_sensor [ret three_readings])))
     = playback_view (snd (run (150, 70)%Z init640)).
Proof.
  apply (@get_range_never_raises (with_sensor [ret three_readings]) init640
           (150, 70)%Z).
  reflexivity.
Defined.

(** What the sensor cases come to on concrete machines. *)

Example reading_parsed :
  reading_attempt (with_sensor [ret three_readings]) = ret 1236%Z.
Proof.
  unfold reading_attempt, with_sensor. cbn [self os lidar port bind ret].
  vm_compute. reflexivity.
Qed.

Example reading_no_sensor :
  reading_attempt init640 = raise AttributeError.
Proof. reflexivity. Qed.

Example reading_read_error :
  reading_attempt (with_sensor [raise SerialException])
  = raise SerialException.
Proof. reflexivity. Qed.

Example reading_timeout :
  reading_attempt (with_sensor []) = raise IndexError.
Proof.
  unfold reading_attempt, with_sensor. cbn [self os lidar port].
  vm_compute. reflexivity.
Qed.

Example reading_not_a_number :
  reading_attempt
    (with_sensor
       [ret (map byte_of_ascii
               (list_ascii_of_string
                  (String.append "12"
                     (String "013"%char
                        (String "010"%char
                           (String.append "13"
                              (String "013"%char
                                 (String "010"%char
                                    (String.append "14"
                                       (String "013"%char
                                          (String "010"%char
                                             EmptyString)))))))))))])
  = raise ValueError.
Proof.
  unfold reading_attempt, with_sensor. cbn [self os lidar port bind ret].
  vm_compute. reflexivity.
Qed.

(* ================================================================= *)
(** ** The frame over a run of the supervisor *)

(** The constructor makes a well-formed object of positive boundaries. *)
Lemma init_well_formed (b : Z * Z) (w : World) (m : Machine) :
  (0 < fst b)%Z -> (0 < snd b)%Z ->
  __init__ b w = ret m -> well_formed (self m).
Proof.
  intros Hw Hh. unfold __init__.
  rewrite py_div_ok by lra. cbn [bind ret].
  rewrite math_pow_2. cbn [bind ret].
  rewrite py_div_ok by lra. cbn [bind ret].
  rewrite math_pow_2. cbn [bind ret].
  apply IZR_lt in Hw, Hh.
  assert (Hpos : 0 < IZR (fst b) / 2 * (IZR (fst b) / 2)
                     + IZR (snd b) / 2 * (IZR (snd b) / 2)) by nra.
  rewrite math_sqrt_ok by lra. cbn [bind ret].
  intros H. injection H as <-.
  unfold well_formed. cbn [self boundaries max_displacement].
  repeat split; try (apply lt_IZR; assumption).
  apply sqrt_lt_R0. exact Hpos.
Qed.

(** No cycle touches the frame, the pacing mode or the sensor handle. *)
Lemma run_keeps_frame (m m' : Machine) (circle : Z * Z) (r : Res unit) :
  run circle m = (r, m') ->
  ONLY_VERT_PACING (self m') = ONLY_VERT_PACING (self m)
  /\ boundaries (self m') = boundaries (self m)
  /\ max_displacement (self m') = max_displacement (self m)
  /\ lidar (self m') = lidar (self m).
Proof.
  intros Hrun.
  destruct ((fst circle =? 0)%Z && (snd circle =? 0)%Z) eqn:Hc.
  - apply is_sentinel in Hc. subst circle.
    destruct (run_sentinel_view m) as (m1 & Hrun1 & Hl & Hv).
    rewrite Hrun1 in Hrun. injection Hrun as <- <-.
    destruct (error_limit <=? error_cycles (self m))%Z;
      known_view m1 Hv; repeat split; assumption.
  - destruct (process_circle (self m) circle)
      as [e | [[[b v] d] c]] eqn:Hp.
    + rewrite (run_raises _ _ Hc Hp) in Hrun. injection Hrun as <- <-.
      rewrite after_read_self. repeat split; reflexivity.
    + destruct (negb (Classification_is c TRACK)
                && Classification_is c (prev_type (self m))) eqn:Hs.
      * rewrite (run_suppressed _ _ Hc Hp Hs) in Hrun.
        injection Hrun as <- <-. rewrite after_read_self.
        repeat split; reflexivity.
      * destruct (run_spawns _ _ Hc Hp Hs) as (a & m1 & _ & Hrun1 & Hv & Hl).
        rewrite Hrun1 in Hrun. injection Hrun as <- <-.
        known_view m1 Hv. repeat split; assumption.
Qed.

Lemma run_keeps_well_formed (m m' : Machine) (circle : Z * Z)
    (r : Res unit) :
  well_formed (self m) -> run circle m = (r, m') -> well_formed (self m').
Proof.
  intros Hwf Hrun.
  destruct (run_keeps_frame _ _ Hrun) as (_ & Hb & Hm & _).
  unfold well_formed in *. rewrite Hb, Hm. exact Hwf.
Qed.

(** Without a frame there is nothing to divide by. *)
Lemma process_circle_zero_width (s : AudioGenerator) (circle : Z * Z) :
  fst (boundaries s) = 0%Z ->
  process_circle s circle = raise ZeroDivisionError.
Proof.
  intros Hw. unfold process_circle. rewrite Hw.
  rewrite py_div_ok by lra. cbn [bind ret].
  replace (0 / 2) with 0 by lra. rewrite py_div_zero. reflexivity.
Qed.

(* ================================================================= *)
(** ** A target seen and lost again *)

Lemma init_constructed640 :
  __init__ (640, 480)%Z no_sensor = ret constructed640.
Proof.
  unfold __init__. cbn [fst snd].
  rewrite py_div_ok by lra. cbn [bind ret].
  rewrite math_pow_2. cbn [bind ret].
  rewrite py_div_ok by lra. cbn [bind ret].
  rewrite math_pow_2. cbn [bind ret].
  rewrite math_sqrt_ok by lra. cbn [bind ret].
  unfold constructed640, gen640, no_sensor.
  cbn [port next_pid trace app].
  do 3 f_equal. f_equal. lra.
Qed.

Lemma reachable_cycles (circles : list (Z * Z)) (m m' : Machine)
    (r : Res unit) :
  reachable m -> cycles circles m = (r, m') -> reachable m'.
Proof.
  revert m. induction circles as [| c rest IH]; intros m Hr Hcyc.
  - cbn [cycles] in Hcyc. injection Hcyc as <- <-. exact Hr.
  - cbn [cycles] in Hcyc. unfold mbind in Hcyc.
    destruct (run c m) as [[e | []] m1] eqn:Hrun.
    + injection Hcyc as <- <-. exact (@reachable_run m _ c _ Hr Hrun).
    + exact (IH m1 (@reachable_run m m1 c _ Hr Hrun) Hcyc).
Qed.

Lemma seen_then_lost_reachable (n : nat) : reachable (seen_then_lost n).
Proof.
  apply (@reachable_cycles ((150, 70)%Z :: repeat sentinel n) constructed640
           _ (fst (cycles ((150, 70)%Z :: repeat sentinel n) constructed640))).
  - apply (@reachable_init (640, 480)%Z no_sensor). apply init_constructed640.
  - apply surjective_pairing.
Qed.

Lemma constructed640_well_formed : well_formed (self constructed640).
Proof. exact gen640_well_formed. Qed.

(** The first sight of the target starts process 100 for [WIDE_LEFT]. *)
Lemma first_sight :
  exists m1,
    run (150, 70)%Z constructed640 = (ret tt, m1)
    /\ prev_pid (self m1) = Some 100%nat
    /\ prev_type (self m1) = WIDE_LEFT
    /\ error_cycles (self m1) = 0%Z.
Proof.
  destruct (classification_of_ret _ _
              (wide_left_150 constructed640_well_formed eq_refl))
    as (b & v & d & Hp).
  assert (Hc : (fst (150, 70)%Z =? 0)%Z && (snd (150, 70)%Z =? 0)%Z = false)
    by reflexivity.
  assert (Hs : negb (Classification_is WIDE_LEFT TRACK)
               && Classification_is WIDE_LEFT
                    (prev_type (self constructed640)) = false)
    by reflexivity.
  destruct (run_spawns _ _ Hc Hp Hs) as (a & m1 & _ & Hrun & Hv & _).
  exists m1. split; [exact Hrun |]. known_view m1 Hv.
  repeat split; reflexivity.
Qed.

(** Up to [error_limit] losses later the playback is still recorded. *)
Lemma seen_then_lost_few (n : nat) :
  (Z.of_nat n <= error_limit)%Z ->
  prev_pid (self (seen_then_lost n)) = Some 100%nat
  /\ prev_type (self (seen_then_lost n)) = WIDE_LEFT
  /\ error_cycles (self (seen_then_lost n)) = Z.of_nat n.
Proof.
  intros Hn. destruct first_sight as (m1 & Hrun & Hp1 & Ht1 & He1).
  destruct (@sentinel_streak n m1) as (m2 & Hcyc & _ & Hv);
    [rewrite He1; lia |].
  unfold seen_then_lost. cbn [cycles].
  erewrite mbind_ok by exact Hrun. rewrite Hcyc. cbn [snd].
  known_view m2 Hv. rewrite Hp1, Ht1, He1. repeat split; reflexivity.
Qed.

(** The eleventh loss in a row ends it. *)
Lemma seen_then_lost_eleven :
  prev_pid (self (seen_then_lost 11)) = None
  /\ prev_type (self (seen_then_lost 11)) = NONE.
Proof.
  destruct first_sight as (m1 & Hrun & Hp1 & Ht1 & He1).
  destruct (@sentinel_streak_kills m1) as (m2 & Hcyc & _ & Hv);
    [rewrite He1; unfold error_limit; lia |].
  rewrite He1 in Hcyc.
  unfold seen_then_lost. cbn [cycles].
  erewrite mbind_ok by exact Hrun.
  change (S (Z.to_nat (error_limit - 0))) with 11%nat in Hcyc.
  rewrite Hcyc. cbn [snd].
  known_view m2 Hv. split; reflexivity.
Qed.

(** The supervisor constructed for a 640 by 480 frame sees a target far
    left, which starts process 100, and then loses it for eleven cycles:
    the classification is back to [NONE], and the handle is gone. *)
Lemma idle_has_no_handle_witness :
  prev_pid (self (seen_then_lost 0)) = Some 100%nat
  /\ prev_type (self (seen_then_lost 11)) = NONE
  /\ prev_pid (self (seen_then_lost 11)) = None.
Proof.
  split; [apply (@seen_then_lost_few 0); unfold error_limit; lia |].
  split; [apply seen_then_lost_eleven |].
  apply (@idle_has_no_handle (seen_then_lost 11)).
  - apply seen_then_lost_reachable.
  - apply seen_then_lost_eleven.
Defined.

(* ================================================================= *)
(** ** Loop expansion *)

Lemma doubling_repeat {A} (n : nat) (s : list A) :
  Nat.iter n (fun l => l ++ l) s = List.concat (repeat s (2 ^ n)).
Proof.
  induction n as [| n IH].
  - cbn. rewrite app_nil_r. reflexivity.
  - rewrite Nat.iter_succ, IH.
    rewrite <- List.concat_app, <- repeat_app.
    f_equal. f_equal. cbn [Nat.pow]. lia.
Qed.

Lemma duration_app (a b : AudioSegment) :
  duration (a ++ b) = duration a + duration b.
Proof.
  unfold duration. induction a as [| t a IH]; cbn [app fold_right].
  - lra.
  - rewrite IH. lra.
Qed.

Lemma duration_copies (s : AudioSegment) (n : nat) :
  duration (List.concat (repeat s n)) = INR n * duration s.
Proof.
  induction n as [| n IH].
  - cbn. unfold duration. cbn. lra.
  - cbn [repeat List.concat]. rewrite duration_app, IH, S_INR. lra.
Qed.

(** X1: [extend] fails with [TypeError] on [None]; on a buffer it returns
    1024 copies of it one after the other, so the result lasts 1024 times
    as long. *)
Theorem extend_1024 (s : AudioSegment) :
  extend None = raise TypeError
  /\ extend (Some s) = ret (List.concat (repeat s 1024))
  /\ List.length (List.concat (repeat s 1024)) = (1024 * List.length s)%nat
  /\ duration (List.concat (repeat s 1024)) = 1024 * duration s.
Proof.
  split; [reflexivity |].
  split; [unfold extend; rewrite doubling_repeat; reflexivity |].
  split.
  - generalize 1024%nat. intros n.
    induction n as [| n IH]; [reflexivity |].
    cbn [repeat List.concat]. rewrite length_app, IH. lia.
  - rewrite duration_copies. f_equal.
    change 1024%nat with (Z.to_nat 1024). rewrite INR_IZR_INZ.
    f_equal.
Qed.

(* ================================================================= *)
(** ** Shape of the balance curve *)

Lemma shapeBalance_curve_left (v : R) :
  - balanceThreshold <= v < - centerDeadzone ->
  shapeBalance v = - sqrt (rescale (- v)).
Proof.
  unfold shapeBalance, sign, balanceThreshold, centerDeadzone. intros Hv.
  rewrite (Rabs_left v) by lra. cmp; lra.
Qed.

Lemma shapeBalance_odd (v : R) : shapeBalance (- v) = - shapeBalance v.
Proof.
  destruct (Rlt_dec balanceThreshold v) as [H1 | H1].
  { rewrite (shapeBalance_saturated_right H1).
    apply shapeBalance_saturated_left. lra. }
  destruct (Rlt_dec v (- balanceThreshold)) as [H2 | H2].
  { rewrite (shapeBalance_saturated_left H2).
    rewrite shapeBalance_saturated_right; lra. }
  destruct (Rlt_dec centerDeadzone v) as [H3 | H3].
  { rewrite (@shapeBalance_curve_right v) by lra.
    rewrite shapeBalance_curve_left by lra.
    rewrite Ropp_involutive. reflexivity. }
  destruct (Rlt_dec v (- centerDeadzone)) as [H4 | H4].
  { rewrite (@shapeBalance_curve_left v) by lra.
    rewrite shapeBalance_curve_right by lra. lra. }
  rewrite (@shapeBalance_deadzone v) by (apply Rabs_le; lra).
  rewrite shapeBalance_deadzone by (apply Rabs_le; lra). lra.
Qed.

Lemma shapeBalance_abs (v : R) :
  shapeBalance (Rabs v) = Rabs (shapeBalance v).
Proof.
  destruct (Rcase_abs v) as [Hneg | Hpos].
  - rewrite (Rabs_left v Hneg), shapeBalance_odd.
    pose proof (@shapeBalance_nonneg (- v)) as H.
    rewrite shapeBalance_odd in H.
    rewrite Rabs_left1 by lra. reflexivity.
  - rewrite (Rabs_right v Hpos).
    rewrite Rabs_right; [reflexivity |].
    apply Rle_ge, shapeBalance_nonneg. lra.
Qed.

Lemma shapeBalance_mono_right (a b : R) :
  0 <= a <= b -> shapeBalance a <= shapeBalance b.
Proof.
  intros [Ha Hab].
  destruct (Rlt_dec balanceThreshold b) as [Hb | Hb].
  { rewrite (shapeBalance_saturated_right Hb). apply shapeBalance_range. }
  destruct (Rle_dec a centerDeadzone) as [Hd | Hd].
  { rewrite (@shapeBalance_deadzone a) by (rewrite Rabs_right; lra).
    apply shapeBalance_nonneg. lra. }
  rewrite !shapeBalance_curve_right by lra.
  apply sqrt_le_1_alt.
  unfold rescale, centerDeadzone, balanceThreshold in *. lra.
Qed.

Lemma shapeBalance_mono (a b : R) :
  a <= b -> shapeBalance a <= shapeBalance b.
Proof.
  intros Hab.
  destruct (Rle_dec 0 a) as [Ha | Ha].
  { apply shapeBalance_mono_right. lra. }
  destruct (Rle_dec 0 b) as [Hb | Hb].
  - pose proof (@shapeBalance_nonneg (- a)) as H1.
    rewrite shapeBalance_odd in H1.
    pose proof (@shapeBalance_nonneg b Hb). lra.
  - pose proof (@shapeBalance_mono_right (- b) (- a)) as H.
    rewrite !shapeBalance_odd in H. lra.
Qed.

Lemma shapeBalance_below_1 (v : R) :
  v < balanceThreshold -> shapeBalance v < 1.
Proof.
  intros Hv.
  destruct (Rle_dec v centerDeadzone) as [Hd | Hd].
  - destruct (Rle_dec 0 v) as [H0 | H0].
    + rewrite shapeBalance_deadzone by (rewrite Rabs_right; lra). lra.
    + pose proof (@shapeBalance_nonneg (- v)) as H.
      rewrite shapeBalance_odd in H. lra.
  - rewrite shapeBalance_curve_right by lra.
    rewrite <- sqrt_1. apply sqrt_lt_1_alt.
    pose proof (@rescale_pos v).
    unfold rescale, centerDeadzone, balanceThreshold in *. lra.
Qed.

Lemma shapeBalance_at_threshold : shapeBalance balanceThreshold = 1.
Proof.
  rewrite shapeBalance_curve_right
    by (unfold centerDeadzone, balanceThreshold; lra).
  replace (rescale balanceThreshold) with 1
    by (unfold rescale, centerDeadzone, balanceThreshold; lra).
  apply sqrt_1.
Qed.

Lemma shapeBalance_ge_1 (v : R) :
  1 <= shapeBalance v <-> balanceThreshold <= v.
Proof.
  split.
  - intros H. destruct (Rle_dec balanceThreshold v) as [| Hn]; [assumption |].
    pose proof (@shapeBalance_below_1 v). lra.
  - intros H. rewrite <- shapeBalance_at_threshold.
    apply shapeBalance_mono. exact H.
Qed.

Lemma shapeBalance_le_m1 (v : R) :
  shapeBalance v <= -1 <-> v <= - balanceThreshold.
Proof.
  pose proof (shapeBalance_ge_1 (- v)) as H.
  rewrite shapeBalance_odd in H. split; intros H'.
  - assert (balanceThreshold <= - v) by (apply H; lra). lra.
  - assert (1 <= - shapeBalance v) by (apply H; lra). lra.
Qed.

(** X2: [get_balance] is odd: a position as far to the left as another is
    to the right gets the opposite pan. *)
Theorem get_balance_odd (v : R) :
  exists b, get_balance v = ret b /\ get_balance (- v) = ret (- b).
Proof.
  exists (shapeBalance v).
  rewrite !get_balance_value, shapeBalance_odd. split; reflexivity.
Qed.

(** X3: [get_balance] never decreases: moving the target to the right
    never moves the pan to the left. *)
Theorem get_balance_monotone (v1 v2 b1 b2 : R) :
  v1 <= v2 -> get_balance v1 = ret b1 -> get_balance v2 = ret b2 ->
  b1 <= b2.
Proof.
  intros Hv. rewrite !get_balance_value.
  intros H1 H2. injection H1 as <-. injection H2 as <-.
  apply shapeBalance_mono. exact Hv.
Qed.

Lemma get_balance_monotone_witness : 0 <= sqrt (rescale 0.25).
Proof.
  apply (@get_balance_monotone 0 0.25 0 (sqrt (rescale 0.25))).
  - lra.
  - rewrite get_balance_value. f_equal.
    apply shapeBalance_deadzone. rewrite Rabs_R0. unfold centerDeadzone. lra.
  - rewrite get_balance_value. f_equal.
    apply shapeBalance_curve_right.
    unfold centerDeadzone, balanceThreshold. lra.
Defined.

(* ================================================================= *)
(** ** [process_circle] in closed form *)

Lemma get_distance_ignores_balance (s : AudioGenerator) (dist b1 b2 : R) :
  get_distance s dist b1 = get_distance s dist b2.
Proof. reflexivity. Qed.

Lemma process_circle_eq (s : AudioGenerator) (circle : Z * Z) :
  well_formed s ->
  exists d,
    get_distance s (pixel_distance s circle) 0 = ret d
    /\ process_circle s circle
       = ret (shapeBalance (rawBalance (fst (boundaries s)) (fst circle)),
              thresh_min_volume
              * sqrt (Rabs (shapeBalance
                              (rawBalance (fst (boundaries s))
                                 (fst circle)))),
              d,
              classify s
                (shapeBalance (rawBalance (fst (boundaries s)) (fst circle)))
                (thresh_min_volume
                 * sqrt (Rabs (shapeBalance
                                 (rawBalance (fst (boundaries s))
                                    (fst circle)))))
                (pixel_distance s circle)).
Proof.
  intros Hwf. pose proof Hwf as (Hw & Hh & Hm).
  apply IZR_lt in Hw. apply IZR_lt in Hh.
  assert (Hpd : 0 <= pixel_distance s circle).
  { unfold pixel_distance. destruct (ONLY_VERT_PACING s);
      [apply Rabs_pos | apply sqrt_pos]. }
  destruct (@get_distance_ok s (pixel_distance s circle) 0 Hwf Hpd)
    as (d & Hd & _).
  exists d. split; [exact Hd |].
  unfold process_circle, rawBalance, pixel_distance in *.
  set (w := IZR (fst (boundaries s))) in *.
  set (h := IZR (snd (boundaries s))) in *.
  set (x := IZR (fst circle)) in *. set (y := IZR (snd circle)) in *.
  rewrite !(@py_div_ok w 2) by lra. cbn [bind ret].
  rewrite (@py_div_ok (x - w / 2) (w / 2)) by lra. cbn [bind ret].
  set (raw := (x - w / 2) / (w / 2)).
  rewrite !get_balance_value.
  rewrite shapeBalance_abs.
  assert (Hvol : forall r,
    thresh_min_volume - (1 - r) * thresh_min_volume = thresh_min_volume * r)
    by (intros r; ring).
  destruct (ONLY_VERT_PACING s) eqn:Hmode.
  - rewrite py_div_ok by lra. cbn [bind ret].
    rewrite math_sqrt_ok by apply Rabs_pos. cbn [bind ret].
    rewrite (@get_distance_ignores_balance s _ _ 0), Hd. cbn [bind ret].
    rewrite Hvol. reflexivity.
  - rewrite math_pow_2. cbn [bind ret].
    rewrite py_div_ok by lra. cbn [bind ret].
    rewrite math_pow_2. cbn [bind ret].
    rewrite math_sqrt_ok
      by (pose proof (Rle_0_sqr (x - w / 2));
          pose proof (Rle_0_sqr (y - h / 2)); unfold Rsqr in *; lra).
    cbn [bind ret].
    rewrite math_sqrt_ok by apply Rabs_pos. cbn [bind ret].
    rewrite (@get_distance_ignores_balance s _ _ 0), Hd. cbn [bind ret].
    rewrite Hvol. reflexivity.
Qed.

(* ================================================================= *)
(** ** Zones of the frame *)

Lemma classify_wide (s : AudioGenerator) (b v d : R) :
  (classify s b v d = WIDE_LEFT <-> b <= -1)
  /\ (classify s b v d = WIDE_RIGHT <-> 1 <= b).
Proof.
  unfold classify.
  destruct (ONLY_VERT_PACING s); cbn [negb];
    cmp; (split; split; intros H); try discriminate H; try reflexivity;
    lra.
Qed.

Lemma rawBalance_quarters (w x : Z) :
  (0 < w)%Z ->
  (rawBalance w x <= - balanceThreshold <-> (4 * x <= w)%Z)
  /\ (balanceThreshold <= rawBalance w x <-> (3 * w <= 4 * x)%Z).
Proof.
  intros Hw. apply IZR_lt in Hw.
  assert (Hraw : rawBalance w x * IZR w = 2 * IZR x - IZR w)
    by (unfold rawBalance; field; lra).
  unfold balanceThreshold.
  split; split; intros H.
  - apply le_IZR. rewrite mult_IZR. nra.
  - apply IZR_le in H. rewrite mult_IZR in H. nra.
  - apply le_IZR. rewrite !mult_IZR. nra.
  - apply IZR_le in H. rewrite !mult_IZR in H. nra.
Qed.

Lemma classification_of_eq (s : AudioGenerator) (circle : Z * Z) :
  well_formed s ->
  classification_of s circle
  = Some (classify s
            (shapeBalance (rawBalance (fst (boundaries s)) (fst circle)))
            (thresh_min_volume
             * sqrt (Rabs (shapeBalance
                             (rawBalance (fst (boundaries s)) (fst circle)))))
            (pixel_distance s circle)).
Proof.
  intros Hwf. destruct (@process_circle_eq s circle Hwf) as (d & _ & Heq).
  unfold classification_of. rewrite Heq. reflexivity.
Qed.

Lemma wide_zones_are_quarters_aux (s : AudioGenerator) (x y : Z) :
  well_formed s ->
  (classification_of s (x, y) = Some WIDE_LEFT
   <-> (4 * x <= fst (boundaries s))%Z)
  /\ (classification_of s (x, y) = Some WIDE_RIGHT
      <-> (3 * fst (boundaries s) <= 4 * x)%Z).
Proof.
  intros Hwf. rewrite (classification_of_eq (x, y) Hwf). cbn [fst].
  destruct Hwf as (Hw & _).
  destruct (@rawBalance_quarters (fst (boundaries s)) x Hw) as [Hl Hr].
  set (raw := rawBalance (fst (boundaries s)) x) in *.
  match goal with
  | |- context [classify s ?b ?v ?d] =>
      destruct (@classify_wide s b v d) as [Cl Cr]
  end.
  split; split; intros H.
  - injection H as H. apply Hl, shapeBalance_le_m1, Cl, H.
  - f_equal. apply Cl, shapeBalance_le_m1, Hl, H.
  - injection H as H. apply Hr, shapeBalance_ge_1, Cr, H.
  - f_equal. apply Cr, shapeBalance_ge_1, Hr, H.
Qed.

(** X5: in a frame of at most 65535 by 65535 pixels, a position inside
    the frame is [WIDE_LEFT] exactly when it lies in the left quarter of
    the width, the quarter line included, and [WIDE_RIGHT] exactly when
    it lies in the right quarter; this holds in both pacing modes and
    whatever the height of the position. *)
Theorem wide_zones_are_quarters (s : AudioGenerator) (x y : Z) :
  well_formed s ->
  (fst (boundaries s) <= 65535)%Z -> (snd (boundaries s) <= 65535)%Z ->
  (0 <= x <= fst (boundaries s))%Z -> (0 <= y <= snd (boundaries s))%Z ->
  (classification_of s (x, y) = Some WIDE_LEFT
   <-> (4 * x <= fst (boundaries s))%Z)
  /\ (classification_of s (x, y) = Some WIDE_RIGHT
      <-> (3 * fst (boundaries s) <= 4 * x)%Z).
Proof.
  intros Hwf _ _ _ _. exact (@wide_zones_are_quarters_aux s x y Hwf).
Qed.

Lemma wide_zones_are_quarters_witness :
  (classification_of gen640 (160, 70)%Z = Some WIDE_LEFT
   <-> (4 * 160 <= fst (boundaries gen640))%Z)
  /\ (classification_of gen640 (160, 70)%Z = Some WIDE_RIGHT
      <-> (3 * fst (boundaries gen640) <= 4 * 160)%Z).
Proof.
  apply (@wide_zones_are_quarters gen640 160 70).
  - unfold well_formed, gen640. cbn [boundaries max_displacement fst snd].
    repeat split; try lia. apply sqrt_lt_R0. lra.
  - unfold gen640. cbn [boundaries fst]. lia.
  - unfold gen640. cbn [boundaries snd]. lia.
  - unfold gen640. cbn [boundaries fst]. lia.
  - unfold gen640. cbn [boundaries snd]. lia.
Defined.

(* ================================================================= *)
(** ** Volume *)

(** X6: in a well-formed frame the volume [process_circle] returns is
    [thresh_min_volume] times the square root of the size of the balance
    it returns: full volume (0 dB) wherever the balance is 0, and the
    lowest volume, -16 dB, for [WIDE_LEFT] and [WIDE_RIGHT]. *)
Theorem volume_follows_balance (s : AudioGenerator) (circle : Z * Z) :
  well_formed s ->
  exists b v d c,
    process_circle s circle = ret (b, v, d, c)
    /\ v = thresh_min_volume * sqrt (Rabs b)
    /\ (b = 0 -> v = 0)
    /\ (c = WIDE_LEFT \/ c = WIDE_RIGHT -> v = -16).
Proof.
  intros Hwf. destruct (@process_circle_eq s circle Hwf) as (d & _ & Heq).
  do 4 eexists. split; [exact Heq |].
  set (b := shapeBalance (rawBalance (fst (boundaries s)) (fst circle))).
  split; [reflexivity |]. split.
  - intros ->. rewrite Rabs_R0, sqrt_0. ring.
  - match goal with
    | |- context [classify s ?b ?v ?d] =>
        destruct (@classify_wide s b v d) as [Cl Cr]
    end.
    pose proof (shapeBalance_range
                  (rawBalance (fst (boundaries s)) (fst circle))) as Hr.
    fold b in Hr.
    intros [H | H].
    + apply Cl in H. rewrite Rabs_left by lra.
      replace (- b) with 1 by lra. rewrite sqrt_1.
      unfold thresh_min_volume. lra.
    + apply Cr in H. rewrite Rabs_right by lra.
      replace b with 1 by lra. rewrite sqrt_1.
      unfold thresh_min_volume. lra.
Qed.

Lemma volume_follows_balance_witness :
  exists b v d c,
    process_circle gen640 (150, 70)%Z = ret (b, v, d, c)
    /\ v = thresh_min_volume * sqrt (Rabs b)
    /\ (b = 0 -> v = 0)
    /\ (c = WIDE_LEFT \/ c = WIDE_RIGHT -> v = -16).
Proof.
  apply (@volume_follows_balance gen640 (150, 70)%Z).
  unfold well_formed, gen640. cbn [boundaries max_displacement fst snd].
  repeat split; try lia. apply sqrt_lt_R0. lra.
Defined.

(* ================================================================= *)
(** ** Left and right *)

Lemma classify_mirrored (s : AudioGenerator) (b v d : R) :
  classify s (- b) v d = mirrored (classify s b v d).
Proof.
  unfold classify. rewrite Rabs_Ropp.
  destruct (ONLY_VERT_PACING s); cbn [negb];
    cmp; first [reflexivity | lra].
Qed.

(** X7: [process_circle] treats left and right alike: the position
    mirrored at the vertical centre line of a well-formed frame gets the
    opposite balance, the same volume and distance, and the mirrored
    classification. *)
Theorem process_circle_mirror (s : AudioGenerator) (x y : Z) :
  well_formed s ->
  exists b v d c,
    process_circle s (x, y) = ret (b, v, d, c)
    /\ process_circle s (fst (boundaries s) - x, y)%Z
       = ret (- b, v, d, mirrored c).
Proof.
  intros Hwf.
  destruct (@process_circle_eq s (x, y) Hwf) as (d & Hd & Heq).
  destruct (@process_circle_eq s (fst (boundaries s) - x, y)%Z Hwf)
    as (d' & Hd' & Heq').
  cbn [fst snd] in *.
  assert (Hraw : rawBalance (fst (boundaries s)) (fst (boundaries s) - x)
                 = - rawBalance (fst (boundaries s)) x).
  { destruct Hwf as (Hw & _). apply IZR_lt in Hw.
    unfold rawBalance. rewrite minus_IZR. field. lra. }
  assert (Hpd : pixel_distance s (fst (boundaries s) - x, y)%Z
                = pixel_distance s (x, y)).
  { unfold pixel_distance. cbn [fst snd]. rewrite minus_IZR.
    destruct (ONLY_VERT_PACING s); [reflexivity |].
    apply f_equal. field. }
  rewrite Hpd in Hd', Heq'. rewrite Hd in Hd'. injection Hd' as <-.
  rewrite Hraw, shapeBalance_odd, Rabs_Ropp, classify_mirrored in Heq'.
  do 4 eexists. split; [exact Heq | exact Heq'].
Qed.

Lemma process_circle_mirror_witness :
  exists b v d c,
    process_circle gen640 (150, 70)%Z = ret (b, v, d, c)
    /\ process_circle gen640 (fst (boundaries gen640) - 150, 70)%Z
       = ret (- b, v, d, mirrored c).
Proof.
  apply (@process_circle_mirror gen640 150 70).
  unfold well_formed, gen640. cbn [boundaries max_displacement fst snd].
  repeat split; try lia. apply sqrt_lt_R0. lra.
Defined.

(* ================================================================= *)
(** ** Scaled distance *)

Lemma get_distance_order (s : AudioGenerator) (d1 d2 b1 b2 : R) :
  well_formed s -> 0 <= d1 <= d2 ->
  exists r1 r2,
    get_distance s d1 b1 = ret r1 /\ get_distance s d2 b2 = ret r2
    /\ 0 <= r1 <= r2
    /\ get_distance s 0 b1 = ret 0
    /\ get_distance s
         (if ONLY_VERT_PACING s then 0.4 * IZR (snd (boundaries s))
          else 0.375 * max_displacement s) b1
       = ret 1.
Proof.
  intros (Hw & Hh & Hm) [H1 H12]. apply IZR_lt in Hh.
  assert (Hone : Rpower 1 0.8 = 1).
  { unfold Rpower. rewrite ln_1, Rmult_0_r. apply exp_0. }
  assert (Hpow : forall x1 x2, 0 <= x1 <= x2 ->
    exists r1 r2, math_pow x1 0.8 = ret r1 /\ math_pow x2 0.8 = ret r2
                  /\ 0 <= r1 <= r2).
  { intros x1 x2 [Hx1 Hx12].
    destruct (@math_pow_nonneg x2 0.8) as (r2 & Hr2 & Hr2' & _);
      [lra | lra |].
    destruct Hx1 as [Hx1 | <-].
    - exists (Rpower x1 0.8), (Rpower x2 0.8).
      rewrite !math_pow_pos by lra.
      repeat split; try reflexivity.
      + unfold Rpower. left. apply exp_pos.
      + apply Rle_Rpower_l; lra.
    - exists 0, r2. rewrite math_pow_zero by lra.
      repeat split; try assumption; try reflexivity. }
  unfold get_distance.
  destruct (ONLY_VERT_PACING s).
  - set (h := IZR (snd (boundaries s))) in *.
    rewrite !py_div_ok by lra. cbn [bind ret].
    rewrite !py_div_ok by lra. cbn [bind ret].
    destruct (Hpow (d1 / h / 0.4) (d2 / h / 0.4))
      as (r1 & r2 & Hr1 & Hr2 & Hr).
    { split.
      - apply div_nonneg; [apply div_nonneg |]; lra.
      - unfold Rdiv. apply Rmult_le_compat_r; [lra |].
        apply Rmult_le_compat_r; [| lra].
        left. apply Rinv_0_lt_compat. lra. }
    exists r1, r2. repeat split; try assumption; try apply Hr.
    + replace (0 / h / 0.4) with 0 by (field; lra).
      apply math_pow_zero. lra.
    + replace (0.4 * h / h / 0.4) with 1 by (field; lra).
      rewrite math_pow_pos by lra. rewrite Hone. reflexivity.
  - set (h := max_displacement s) in *.
    rewrite !py_div_ok by lra. cbn [bind ret].
    rewrite !py_div_ok by lra. cbn [bind ret].
    destruct (Hpow (d1 / h / 0.375) (d2 / h / 0.375))
      as (r1 & r2 & Hr1 & Hr2 & Hr).
    { split.
      - apply div_nonneg; [apply div_nonneg |]; lra.
      - unfold Rdiv. apply Rmult_le_compat_r; [lra |].
        apply Rmult_le_compat_r; [| lra].
        left. apply Rinv_0_lt_compat. lra. }
    exists r1, r2. repeat split; try assumption; try apply Hr.
    + replace (0 / h / 0.375) with 0 by (field; lra).
      apply math_pow_zero. lra.
    + replace (0.375 * h / h / 0.375) with 1 by (field; lra).
      rewrite math_pow_pos by lra. rewrite Hone. reflexivity.
Qed.

(** X8: in a well-formed frame [get_distance] returns for every distance
    that is not negative; the result is 0 at distance 0, never negative,
    and grows with the distance.  It is 1 at four tenths of the height
    (vertical-only mode) or at [0.375 * max_displacement] (radial mode),
    and the balance argument plays no part. *)
Theorem get_distance_monotone (s : AudioGenerator) (d1 d2 b1 b2 : R) :
  well_formed s -> 0 <= d1 <= d2 ->
  exists r1 r2,
    get_distance s d1 b1 = ret r1 /\ get_distance s d2 b2 = ret r2
    /\ 0 <= r1 <= r2
    /\ get_distance s 0 b1 = ret 0
    /\ get_distance s
         (if ONLY_VERT_PACING s then 0.4 * IZR (snd (boundaries s))
          else 0.375 * max_displacement s) b1
       = ret 1.
Proof. exact (@get_distance_order s d1 d2 b1 b2). Qed.

Lemma get_distance_monotone_witness :
  exists r1 r2,
    get_distance gen640 10 0 = ret r1 /\ get_distance gen640 170 0 = ret r2
    /\ 0 <= r1 <= r2
    /\ get_distance gen640 0 0 = ret 0
    /\ get_distance gen640
         (if ONLY_VERT_PACING gen640
          then 0.4 * IZR (snd (boundaries gen640))
          else 0.375 * max_displacement gen640) 0
       = ret 1.
Proof.
  apply (@get_distance_monotone gen640 10 170 0 0).
  - unfold well_formed, gen640. cbn [boundaries max_displacement fst snd].
    repeat split; try lia. apply sqrt_lt_R0. lra.
  - lra.
Defined.

(* ================================================================= *)
(** ** What each classification sounds like *)

Ltac buffer_length :=
  unfold duration, to_audio_segment, AudioSegment_pan, set_pan,
    cycle_time_min, cycle_time_blip, cycle_time_max;
  cbn [map app fold_right durationMs];
  rewrite ?Rplus_0_r; reflexivity.

(** X9: for a balance within [-1, 1] and every classification but
    [NONE], [generate_sound] returns a buffer that is not empty.  All its
    tones share one pan: -1 for [WIDE_LEFT], 1 for [WIDE_RIGHT], the
    balance for [TRACK], the centre for [BULLS]; they are at [bulls_freq]
    for [BULLS] and at [center_freq] otherwise; and the buffer lasts
    [cycle_time_min], but for [TRACK] [cycle_time_blip] plus the silent
    stretch.  For [NONE] there is no buffer, which [extend] answers with
    [TypeError]. *)
Theorem generate_sound_by_class (b v d : R) (c : Classification) :
  -1 <= b <= 1 ->
  match c with
  | NONE =>
      generate_sound b v d c = ret None
      /\ bind (generate_sound b v d c) extend = raise TypeError
  | _ =>
      exists a,
        generate_sound b v d c = ret (Some a)
        /\ a <> []
        /\ Forall (fun t => pan t = match c with
                                    | WIDE_LEFT => -1
                                    | WIDE_RIGHT => 1
                                    | TRACK => b
                                    | _ => 0
                                    end) a
        /\ Forall (fun t => toneHz t = match c with
                                       | BULLS => bulls_freq
                                       | _ => center_freq
                                       end) a
        /\ duration a = match c with
                        | TRACK => cycle_time_blip
                                   + (cycle_time_max - cycle_time_blip)
                                     * (d * d)
                        | _ => cycle_time_min
                        end
  end.
Proof.
  intros Hb.
  destruct c; unfold generate_sound, generate_beeps;
    cbn [Classification_is bind ret].
  - rewrite pan_method_ok by lra.
    eexists. split; [reflexivity |].
    split; [discriminate |]. repeat split.
    + repeat constructor.
    + repeat constructor.
    + buffer_length.
  - rewrite pan_method_ok by lra.
    eexists. split; [reflexivity |].
    split; [discriminate |]. repeat split.
    + repeat constructor.
    + repeat constructor.
    + buffer_length.
  - rewrite math_pow_2. cbn [bind ret].
    rewrite pan_method_ok by exact Hb.
    eexists. split; [reflexivity |].
    split; [discriminate |]. repeat split.
    + repeat constructor.
    + repeat constructor.
    + buffer_length.
  - rewrite py_div_ok by lra. cbn [bind ret].
    eexists. split; [reflexivity |].
    split; [discriminate |]. repeat split.
    + repeat constructor.
    + repeat constructor.
    + buffer_length.
  - split; reflexivity.
Qed.

Lemma generate_sound_by_class_witness :
  exists a,
    generate_sound 0.5 (-8) 0.5 TRACK = ret (Some a)
    /\ a <> []
    /\ Forall (fun t => pan t = 0.5) a
    /\ Forall (fun t => toneHz t = center_freq) a
    /\ duration a
       = cycle_time_blip + (cycle_time_max - cycle_time_blip) * (0.5 * 0.5).
Proof.
  apply (@generate_sound_by_class 0.5 (-8) 0.5 TRACK). lra.
Defined.

(* ================================================================= *)
(** ** The circle nearest to the centre *)

Lemma for_circle_fold (vp : VideoProcessor.VideoProcessor)
    (circles : list VideoProcessor.Circle)
    (bestCircle : option VideoProcessor.Circle) (bestHeur : R) :
  VideoProcessor.for_circle vp circles bestCircle bestHeur
  = ret (fold_left (VideoProcessor.turn vp) circles (bestCircle, bestHeur)).
Proof.
  revert bestCircle bestHeur.
  induction circles as [| c rest IH]; intros bc bh; [reflexivity |].
  cbn [VideoProcessor.for_circle fold_left].
  rewrite !py_div_ok by lra. cbn [bind ret].
  unfold VideoProcessor.turn at 2. unfold VideoProcessor.heuristic.
  cbn [snd].
  destruct (Rltb _ bh); apply IH.
Qed.

(** The loop keeps its first pair when no circle is nearer than
    [bestHeur]; otherwise it ends on the first of the nearest circles. *)
Lemma turn_fold (vp : VideoProcessor.VideoProcessor)
    (circles : list VideoProcessor.Circle)
    (bc : option VideoProcessor.Circle) (bh : R) :
  (fold_left (VideoProcessor.turn vp) circles (bc, bh) = (bc, bh)
   /\ forall c, In c circles -> bh <= VideoProcessor.heuristic vp c)
  \/ (exists l1 c l2,
        circles = l1 ++ c :: l2
        /\ fold_left (VideoProcessor.turn vp) circles (bc, bh) = (Some c, VideoProcessor.heuristic vp c)
        /\ VideoProcessor.heuristic vp c < bh
        /\ (forall c', In c' l1 -> VideoProcessor.heuristic vp c < VideoProcessor.heuristic vp c')
        /\ (forall c', In c' l2 -> VideoProcessor.heuristic vp c <= VideoProcessor.heuristic vp c')).
Proof.
  revert bc bh. induction circles as [| c0 rest IH]; intros bc bh.
  - left. split; [reflexivity | intros c []].
  - cbn [fold_left]. unfold VideoProcessor.turn at 2 4. cbn [snd].
    destruct (Rltb_spec (VideoProcessor.heuristic vp c0) bh) as [Hlt | Hge].
    + right.
      destruct (IH (Some c0) (VideoProcessor.heuristic vp c0))
        as [[Heq Hall] | (l1 & c & l2 & Hsplit & Heq & Hc & H1 & H2)].
      * exists [], c0, rest.
        split; [reflexivity |]. split; [exact Heq |].
        split; [exact Hlt |]. split; [intros c' [] | exact Hall].
      * exists (c0 :: l1), c, l2. subst rest.
        split; [reflexivity |]. split; [exact Heq |].
        split; [lra |]. split; [| exact H2].
        intros c' [<- | Hin]; [exact Hc | exact (H1 c' Hin)].
    + destruct (IH bc bh)
        as [[Heq Hall] | (l1 & c & l2 & Hsplit & Heq & Hc & H1 & H2)].
      * left. split; [exact Heq |].
        intros c' [<- | Hin]; [lra | exact (Hall c' Hin)].
      * right. exists (c0 :: l1), c, l2. subst rest.
        split; [reflexivity |]. split; [exact Heq |].
        split; [exact Hc |]. split; [| exact H2].
        intros c' [<- | Hin]; [lra | exact (H1 c' Hin)].
Qed.

(** X10: [discard_worst] raises [IndexError] when the outer array has no
    row.  Otherwise it returns: [None] when no circle of the first row
    is nearer to the frame centre than 9999999999 (so for an empty row),
    and else the first circle of the row among those nearest to the
    centre, measured along the axes. *)
Theorem discard_worst_nearest (vp : VideoProcessor.VideoProcessor)
    (circles : list VideoProcessor.Circle)
    (others : list (list VideoProcessor.Circle)) :
  VideoProcessor.discard_worst vp [] = raise IndexError
  /\ ((VideoProcessor.discard_worst vp (circles :: others) = ret None
       /\ forall c, In c circles -> 9999999999 <= VideoProcessor.heuristic vp c)
      \/ (exists l1 c l2,
            circles = l1 ++ c :: l2
            /\ VideoProcessor.discard_worst vp (circles :: others) = ret (Some c)
            /\ VideoProcessor.heuristic vp c < 9999999999
            /\ (forall c', In c' l1 -> VideoProcessor.heuristic vp c < VideoProcessor.heuristic vp c')
            /\ (forall c', In c' l2 -> VideoProcessor.heuristic vp c <= VideoProcessor.heuristic vp c'))).
Proof.
  split; [reflexivity |].
  unfold VideoProcessor.discard_worst, index. cbn [nth_error bind ret].
  rewrite for_circle_fold. cbn [bind ret].
  destruct (turn_fold vp circles None 9999999999)
    as [[Heq Hall] | (l1 & c & l2 & Hsplit & Heq & Hc & H1 & H2)].
  - left. rewrite Heq. split; [reflexivity | exact Hall].
  - right. exists l1, c, l2. rewrite Heq. repeat split; assumption.
Qed.

(* ================================================================= *)
(** ** The handover *)



(* ================================================================= *)
(** ** One live process *)

Lemma live_app (t l : list event) :
  live (t ++ l) = fold_left live_step l (live t).
Proof. unfold live. apply fold_left_app. Qed.

Lemma run_keeps_one_live (m m' : Machine) (circle : Z * Z) (r : Res unit) :
  one_live m -> run circle m = (r, m') -> one_live m'.
Proof.
  intros [Hlive Hfresh] Hrun.
  destruct ((fst circle =? 0)%Z && (snd circle =? 0)%Z) eqn:Hc.
  - apply is_sentinel in Hc. subst circle.
    destruct (run_sentinel_view m) as (m1 & Hrun1 & _ & Hv).
    rewrite Hrun1 in Hrun. injection Hrun as <- <-.
    destruct (error_limit <=? error_cycles (self m))%Z; known_view m1 Hv;
      unfold one_live; cbn [self os trace prev_pid next_pid].
    + split; [| discriminate]. cbn [handle_list].
      rewrite live_app, Hlive.
      destruct (prev_pid (self m)) as [p |]; [| reflexivity].
      cbn [kill_events handle_list fold_left live_step remove].
      destruct (Nat.eq_dec p p) as [_ | Hn]; [reflexivity |].
      contradiction Hn. reflexivity.
    + split; assumption.
  - assert (Hsame : one_live (after_read m)).
    { unfold one_live.
      rewrite after_read_trace, after_read_self, after_read_next_pid.
      split; assumption. }
    destruct (process_circle (self m) circle)
      as [e | [[[b v] d] c]] eqn:Hp.
    + rewrite (run_raises _ _ Hc Hp) in Hrun. injection Hrun as <- <-.
      exact Hsame.
    + destruct (negb (Classification_is c TRACK)
                && Classification_is c (prev_type (self m))) eqn:Hs.
      * rewrite (run_suppressed _ _ Hc Hp Hs) in Hrun.
        injection Hrun as <- <-. exact Hsame.
      * destruct (run_spawns _ _ Hc Hp Hs) as (a & m1 & _ & Hrun1 & Hv & _).
        rewrite Hrun1 in Hrun. injection Hrun as <- <-.
        known_view m1 Hv.
        unfold one_live; cbn [self os trace prev_pid next_pid]. split.
        -- cbn [handle_list]. rewrite live_app, Hlive.
           destruct (prev_pid (self m)) as [p |] eqn:Hpp.
           ++ specialize (Hfresh p eq_refl).
              cbn [kill_events handle_list fold_left live_step remove app].
              destruct (Nat.eq_dec p p) as [_ | Hn];
                [| contradiction Hn; reflexivity].
              destruct (Nat.eq_dec p (next_pid (os m))) as [He | _];
                [lia | reflexivity].
           ++ reflexivity.
        -- intros p Hp'. injection Hp' as <-. lia.
Qed.

(** X12: the supervisor keeps one process alive at most.  If, before a
    run of cycles, the processes started and not yet sent a kill are just
    the recorded handle (none when no handle is recorded), then the same
    holds after the run, whether it ends normally or in an exception. *)
Theorem cycles_keep_one_live (circles : list (Z * Z)) (m m' : Machine)
    (r : Res unit) :
  one_live m -> cycles circles m = (r, m') ->
  live (trace (os m')) = handle_list (prev_pid (self m'))
  /\ (List.length (live (trace (os m'))) <= 1)%nat.
Proof.
  intros Hone Hcyc.
  assert (H : one_live m').
  { revert m Hone Hcyc. induction circles as [| c rest IH]; intros m Hone Hcyc.
    - cbn [cycles] in Hcyc. injection Hcyc as <- <-. exact Hone.
    - cbn [cycles] in Hcyc. unfold mbind in Hcyc.
      destruct (run c m) as [[e | []] m1] eqn:Hrun.
      + injection Hcyc as <- <-. exact (@run_keeps_one_live _ _ _ _ Hone Hrun).
      + exact (IH m1 (@run_keeps_one_live _ _ _ _ Hone Hrun) Hcyc). }
  destruct H as [Hl _]. split; [exact Hl |].
  rewrite Hl. destruct (prev_pid (self m')); cbn; lia.
Qed.

Lemma init640_one_live : one_live init640.
Proof. split; [reflexivity | discriminate]. Qed.

Lemma cycles_keep_one_live_witness :
  live (trace (os (snd (cycles [(150, 70)%Z; sentinel; (400, 240)%Z]
                          init640))))
  = handle_list
      (prev_pid (self (snd (cycles [(150, 70)%Z; sentinel; (400, 240)%Z]
                              init640))))
  /\ (List.length
        (live (trace (os (snd (cycles [(150, 70)%Z; sentinel; (400, 240)%Z]
                                 init640))))) <= 1)%nat.
Proof.
  apply (@cycles_keep_one_live [(150, 70)%Z; sentinel; (400, 240)%Z]
           init640 _
           (fst (cycles [(150, 70)%Z; sentinel; (400, 240)%Z] init640))).
  - split; [reflexivity | discriminate].
  - apply surjective_pairing.
Defined.

(* ================================================================= *)
(** ** Idle *)



(* ================================================================= *)
(** ** Bookkeeping of reachable states *)

Lemma run_keeps_bookkeeping (m m' : Machine) (circle : Z * Z)
    (r : Res unit) :
  (prev_pid (self m) = None -> prev_type (self m) = NONE)
  /\ (0 <= error_cycles (self m))%Z
  /\ (prev_type (self m) <> NONE ->
      (error_cycles (self m) <= error_limit)%Z) ->
  run circle m = (r, m') ->
  (prev_pid (self m') = None -> prev_type (self m') = NONE)
  /\ (0 <= error_cycles (self m'))%Z
  /\ (prev_type (self m') <> NONE ->
      (error_cycles (self m') <= error_limit)%Z).
Proof.
  intros (Hconv & Hpos & Hbound) Hrun.
  destruct ((fst circle =? 0)%Z && (snd circle =? 0)%Z) eqn:Hc.
  - apply is_sentinel in Hc. subst circle.
    destruct (run_sentinel_view m) as (m1 & Hrun1 & _ & Hv).
    rewrite Hrun1 in Hrun. injection Hrun as <- <-.
    destruct (Z.leb_spec error_limit (error_cycles (self m)));
      known_view m1 Hv.
    + split; [reflexivity |]. split; [lia |].
      intros Hn. contradiction Hn. reflexivity.
    + split; [exact Hconv |]. split; lia.
  - destruct (process_circle (self m) circle)
      as [e | [[[b v] d] c]] eqn:Hp.
    + rewrite (run_raises _ _ Hc Hp) in Hrun. injection Hrun as <- <-.
      rewrite after_read_self. repeat split; assumption.
    + destruct (negb (Classification_is c TRACK)
                && Classification_is c (prev_type (self m))) eqn:Hs.
      * rewrite (run_suppressed _ _ Hc Hp Hs) in Hrun.
        injection Hrun as <- <-. rewrite after_read_self.
        repeat split; assumption.
      * destruct (run_spawns _ _ Hc Hp Hs) as (a & m1 & _ & Hrun1 & Hv & _).
        rewrite Hrun1 in Hrun. injection Hrun as <- <-.
        known_view m1 Hv.
        split; [discriminate |]. unfold error_limit. split; lia.
Qed.

(** X14: in every state reachable from construction by calls of [run], a
    recorded classification comes with a recorded handle; the count of
    losses is never negative; and while a classification is recorded the
    count is at most [error_limit]. *)
Theorem reachable_bookkeeping (m : Machine) :
  reachable m ->
  (prev_pid (self m) = None -> prev_type (self m) = NONE)
  /\ (0 <= error_cycles (self m))%Z
  /\ (prev_type (self m) <> NONE ->
      (error_cycles (self m) <= error_limit)%Z).
Proof.
  intros Hr. induction Hr as [b w m Hinit | m m' circle r Hr IH Hrun].
  - unfold __init__ in Hinit.
    repeat match type of Hinit with
      | context [bind ?x _] =>
          destruct x; cbn [bind] in Hinit; [discriminate Hinit |]
      end.
    injection Hinit as <-. cbn [self prev_pid prev_type error_cycles].
    unfold error_limit. repeat split; try reflexivity; lia.
  - exact (@run_keeps_bookkeeping m m' circle r IH Hrun).
Qed.

(** The supervisor has seen a target far left and lost it for three
    cycles since: [WIDE_LEFT] is recorded with its handle, and three
    losses are on the count. *)
Lemma reachable_bookkeeping_witness :
  (prev_pid (self (seen_then_lost 3)) = Some 100%nat
   /\ prev_type (self (seen_then_lost 3)) = WIDE_LEFT
   /\ error_cycles (self (seen_then_lost 3)) = 3%Z)
  /\ (prev_pid (self (seen_then_lost 3)) = None ->
      prev_type (self (seen_then_lost 3)) = NONE)
  /\ (0 <= error_cycles (self (seen_then_lost 3)))%Z
  /\ (prev_type (self (seen_then_lost 3)) <> NONE ->
      (error_cycles (self (seen_then_lost 3)) <= error_limit)%Z).
Proof.
  split; [apply (@seen_then_lost_few 3); unfold error_limit; lia |].
  apply (@reachable_bookkeeping (seen_then_lost 3)).
  apply seen_then_lost_reachable.
Defined.

(* ================================================================= *)
(** ** Construction *)

Lemma init_total (b : Z * Z) (w : World) :
  exists m,
    __init__ b w = ret m
    /\ prev_type (self m) = NONE
    /\ error_cycles (self m) = 0%Z.
Proof.
  unfold __init__.
  rewrite py_div_ok by lra. cbn [bind ret].
  rewrite math_pow_2. cbn [bind ret].
  rewrite py_div_ok by lra. cbn [bind ret].
  rewrite math_pow_2. cbn [bind ret].
  rewrite math_sqrt_ok
    by (pose proof (Rle_0_sqr (IZR (fst b) / 2));
        pose proof (Rle_0_sqr (IZR (snd b) / 2)); unfold Rsqr in *; lra).
  cbn [bind ret]. eexists. repeat split.
Qed.

(** X15: for boundaries of at most 65535 in size, zero and negative ones
    included, the constructor returns.  It asks the system for the serial
    port and, when the port opens, writes the bytes 00 11 01 45 to it,
    and asks nothing else; it gives an idle supervisor in the
    vertical-only mode with a count of 0, whose [max_displacement] is
    half the diagonal of the frame; the sensor handle is there exactly
    when the port could be opened. *)
Theorem init_returns (b : Z * Z) (w : World) :
  (Z.abs (fst b) <= 65535)%Z -> (Z.abs (snd b) <= 65535)%Z ->
  exists m,
    __init__ b w = ret m
    /\ trace (os m)
       = trace w
         ++ SerialOpen "/dev/ttyACM0" 115200 1
            :: match port w with
               | Some _ =>
                   [SerialWrite [Byte.x00; Byte.x11; Byte.x01; Byte.x45]]
               | None => []
               end
    /\ next_pid (os m) = next_pid w
    /\ port (os m) = port w
    /\ boundaries (self m) = b
    /\ ONLY_VERT_PACING (self m) = true
    /\ prev_pid (self m) = None
    /\ prev_type (self m) = NONE
    /\ error_cycles (self m) = 0%Z
    /\ max_displacement (self m)
       = sqrt (IZR (fst b) * IZR (fst b) + IZR (snd b) * IZR (snd b)) / 2
    /\ (lidar (self m) = None <-> port w = None).
Proof.
  intros _ _. unfold __init__.
  rewrite py_div_ok by lra. cbn [bind ret].
  rewrite math_pow_2. cbn [bind ret].
  rewrite py_div_ok by lra. cbn [bind ret].
  rewrite math_pow_2. cbn [bind ret].
  set (x := IZR (fst b)). set (y := IZR (snd b)).
  assert (Hsq : 0 <= x * x + y * y)
    by (pose proof (Rle_0_sqr x); pose proof (Rle_0_sqr y);
        unfold Rsqr in *; lra).
  rewrite math_sqrt_ok by lra. cbn [bind ret].
  eexists. split; [reflexivity |].
  cbn [self os boundaries ONLY_VERT_PACING prev_pid prev_type error_cycles
       max_displacement lidar trace next_pid port].
  repeat split; try reflexivity.
  - replace (x / 2 * (x / 2) + y / 2 * (y / 2))
      with ((x * x + y * y) * (/ 2 * / 2)) by field.
    rewrite sqrt_mult by lra.
    rewrite sqrt_square by lra. reflexivity.
  - destruct (port w); [discriminate | reflexivity].
  - destruct (port w); [discriminate | reflexivity].
Qed.

(** A 640 by 480 frame on a machine whose sensor answers. *)
Lemma init_returns_witness :
  exists m,
    __init__ (640, 480)%Z (os (with_sensor [ret three_readings])) = ret m
    /\ trace (os m)
       = trace (os (with_sensor [ret three_readings]))
         ++ SerialOpen "/dev/ttyACM0" 115200 1
            :: match port (os (with_sensor [ret three_readings])) with
               | Some _ =>
                   [SerialWrite [Byte.x00; Byte.x11; Byte.x01; Byte.x45]]
               | None => []
               end
    /\ next_pid (os m) = next_pid (os (with_sensor [ret three_readings]))
    /\ port (os m) = port (os (with_sensor [ret three_readings]))
    /\ boundaries (self m) = (640, 480)%Z
    /\ ONLY_VERT_PACING (self m) = true
    /\ prev_pid (self m) = None
    /\ prev_type (self m) = NONE
    /\ error_cycles (self m) = 0%Z
    /\ max_displacement (self m)
       = sqrt (IZR (fst (640, 480)%Z) * IZR (fst (640, 480)%Z)
               + IZR (snd (640, 480)%Z) * IZR (snd (640, 480)%Z)) / 2
    /\ (lidar (self m) = None
        <-> port (os (with_sensor [ret three_readings])) = None).
Proof.
  apply (@init_returns (640, 480)%Z (os (with_sensor [ret three_readings])));
    cbn [fst snd]; lia.
Defined.

(* ================================================================= *)
(** ** The demonstration loop *)

Lemma bouncing_start : bouncing (150, 70)%Z 10 10.
Proof.
  unfold bouncing. cbn [fst snd].
  repeat split; try lia; try reflexivity; left; reflexivity.
Qed.

Lemma bounce_keeps_bouncing (c c' : Z * Z) (i j i' j' : Z) :
  bouncing c i j -> bounce c i j = (c', i', j') -> bouncing c' i' j'.
Proof.
  destruct c as [x y]. unfold bouncing, bounce. cbn [fst snd].
  intros (Hx & Hy & Bx & By & Hi & Hj & Hph) Heq.
  destruct Hi as [-> | ->]; destruct Hj as [-> | ->];
    cbn [Z.gtb Z.ltb Z.compare Z.opp andb orb] in *;
    rewrite ?andb_false_r, ?andb_true_r, ?orb_false_r, ?orb_false_l in Heq;
    destruct (Z.eqb_spec x 640); destruct (Z.eqb_spec x 0);
    destruct (Z.eqb_spec y 480); destruct (Z.eqb_spec y 0);
    injection Heq as <- <- <-; cbn [fst snd Z.gtb Z.compare Z.opp];
    (repeat split;
     [ Z.div_mod_to_equations; lia | Z.div_mod_to_equations; lia
     | Z.div_mod_to_equations; lia | Z.div_mod_to_equations; lia
     | Z.div_mod_to_equations; lia | Z.div_mod_to_equations; lia
     | first [left; reflexivity | right; reflexivity]
     | first [left; reflexivity | right; reflexivity]
     | Z.div_mod_to_equations; lia ]).
Qed.

Lemma bouncing_in_frame (c : Z * Z) (i j : Z) :
  bouncing c i j ->
  (0 <= fst c <= 640)%Z /\ (0 <= snd c <= 480)%Z /\ c <> sentinel.
Proof.
  destruct c as [x y]. unfold bouncing, sentinel. cbn [fst snd].
  intros (Hx & Hy & Bx & By & Hi & Hj & Hph).
  split; [exact Bx |]. split; [exact By |].
  intros Heq. injection Heq as -> ->.
  destruct Hi as [-> | ->]; destruct Hj as [-> | ->];
    cbn [Z.gtb Z.compare] in Hph; vm_compute in Hph; discriminate Hph.
Qed.

Lemma target_after_bouncing (n : nat) :
  bouncing (fst (fst (target_after n))) (snd (fst (target_after n)))
    (snd (target_after n)).
Proof.
  induction n as [| n IH]; [exact bouncing_start |].
  unfold target_after in *. rewrite Nat.iter_succ.
  set (st := Nat.iter n _ _) in *.
  apply (bounce_keeps_bouncing IH).
  destruct (bounce _ _ _) as [[c i] j]. reflexivity.
Qed.

(** X16: the target of the demonstration loop never leaves the 640 by 480
    frame and is never at (0, 0), the position that stands for a lost
    target, however many turns the loop has made. *)
Theorem demo_target_in_frame (n : nat) :
  (0 <= fst (fst (fst (target_after n))) <= 640)%Z
  /\ (0 <= snd (fst (fst (target_after n))) <= 480)%Z
  /\ fst (fst (target_after n)) <> sentinel.
Proof. exact (bouncing_in_frame (target_after_bouncing n)). Qed.

Lemma run_on_target (m : Machine) (circle : Z * Z) :
  well_formed (self m) -> circle <> sentinel ->
  exists m',
    run circle m = (ret tt, m')
    /\ well_formed (self m')
    /\ prev_type (self m') <> NONE
    /\ (error_cycles (self m') = error_cycles (self m)
        \/ error_cycles (self m') = 0%Z).
Proof.
  intros Hwf Hne. apply not_sentinel in Hne.
  destruct (@process_circle_ok (self m) circle Hwf) as (dfc & d0 & Hok & _).
  destruct (process_circle (self m) circle)
    as [e | [[[b v] d] c]] eqn:Hp; [discriminate Hok |]. clear Hok.
  pose proof (process_circle_not_NONE _ _ Hp) as Hc.
  destruct (negb (Classification_is c TRACK)
            && Classification_is c (prev_type (self m))) eqn:Hs.
  - exists (after_read m).
    split; [exact (run_suppressed _ _ Hne Hp Hs) |].
    rewrite after_read_self. apply suppress_iff in Hs as [Hs _].
    split; [exact Hwf |]. split; [congruence | left; reflexivity].
  - destruct (run_spawns _ _ Hne Hp Hs) as (a & m' & _ & Hrun & Hv & _).
    exists m'. split; [exact Hrun |].
    split; [exact (@run_keeps_well_formed _ _ _ _ Hwf Hrun) |].
    known_view m' Hv. split; [exact Hc | right; reflexivity].
Qed.

Lemma main_loop_ok (pauses : list R) (m : Machine) (c : Z * Z) (i j : Z) :
  well_formed (self m) -> error_cycles (self m) = 0%Z -> bouncing c i j ->
  exists st m',
    main_loop pauses c i j m = (ret st, m')
    /\ well_formed (self m')
    /\ error_cycles (self m') = 0%Z
    /\ st = Nat.iter (List.length pauses)
               (fun st => bounce (fst (fst st)) (snd (fst st)) (snd st))
               (c, i, j)
    /\ (pauses <> [] \/ prev_type (self m) <> NONE ->
        prev_type (self m') <> NONE).
Proof.
  revert m c i j.
  induction pauses as [| pause rest IH]; intros m c i j Hwf He Hb.
  - exists (c, i, j), m. cbn [main_loop]. split; [reflexivity |].
    split; [exact Hwf |]. split; [exact He |]. split; [reflexivity |].
    intros [H | H]; [contradiction H; reflexivity | exact H].
  - cbn [main_loop].
    destruct (bouncing_in_frame Hb) as (_ & _ & Hns).
    destruct (@run_on_target m c Hwf Hns) as (m1 & Hrun & Hwf1 & Ht1 & He1).
    erewrite mbind_ok by exact Hrun.
    erewrite mbind_ok by (unfold emit; reflexivity).
    destruct (bounce c i j) as [[c' i'] j'] eqn:Hstep.
    match goal with
    | |- context [main_loop rest c' i' j' ?m2] =>
        destruct (IH m2 c' i' j')
          as (st & m' & Hloop & Hwf' & He' & Hb' & Ht')
    end.
    + exact Hwf1.
    + cbn [self]. destruct He1 as [-> | ->]; [exact He | reflexivity].
    + exact (bounce_keeps_bouncing Hb Hstep).
    + exists st, m'. split; [exact Hloop |].
      split; [exact Hwf' |]. split; [exact He' |].
      split; [rewrite Hb'; cbn [List.length]; rewrite Nat.iter_succ_r;
              cbn [fst snd]; rewrite Hstep; reflexivity |].
      intros _. apply Ht'. right. exact Ht1.
Qed.

(** X17: the demonstration script runs without exception for as many
    turns as pauses are drawn, on any machine.  The detection-loss branch
    is never taken: the count of losses is 0 at the end, and once the loop
    has turned a classification is recorded. *)
Theorem demo_never_loses_target (pauses : list R) (w : World) :
  exists st m',
    main pauses w = ret (ret st, m')
    /\ error_cycles (self m') = 0%Z
    /\ well_formed (self m')
    /\ match pauses with
       | [] => prev_type (self m') = NONE
       | _ :: _ => prev_type (self m') <> NONE
       end
    /\ st = target_after (List.length pauses).
Proof.
  destruct (init_total (640, 480)%Z w) as (m0 & Hinit & Hidle & Hec).
  assert (Hwf : well_formed (self m0))
    by (apply (@init_well_formed (640, 480)%Z w);
        [cbn [fst]; lia | cbn [snd]; lia | exact Hinit]).
  destruct (@main_loop_ok pauses m0 (150, 70)%Z 10%Z 10%Z Hwf Hec
              bouncing_start) as (st & m' & Hloop & Hwf' & He' & Hst & Ht').
  exists st, m'. unfold main. rewrite Hinit. cbn [bind ret].
  rewrite Hloop. split; [reflexivity |].
  split; [exact He' |]. split; [exact Hwf' |].
  split; [| exact Hst].
  destruct pauses as [| p rest].
  - cbn [main_loop mret] in Hloop. injection Hloop as _ <-. exact Hidle.
  - apply Ht'. left. discriminate.
Qed.

(* ================================================================= *)
(** ** Cadence of the blips *)

Lemma track_buffer (b v d : R) :
  -1 <= b <= 1 ->
  exists a,
    generate_sound b v d TRACK = ret (Some a)
    /\ duration a
       = cycle_time_blip + (cycle_time_max - cycle_time_blip) * (d * d).
Proof.
  intros Hb. unfold generate_sound, generate_beeps.
  cbn [Classification_is bind ret].
  rewrite math_pow_2. cbn [bind ret].
  rewrite pan_method_ok by exact Hb.
  eexists. split; [reflexivity |]. buffer_length.
Qed.

(** X18: the nearer the target is to the centre, the faster the blips.
    For two positions in a well-formed frame, the [TRACK] buffer made
    from the values of [process_circle] is no longer for the position
    with the smaller pixel distance; it never lasts less than
    [cycle_time_blip], and exactly that at pixel distance 0. *)
Theorem track_cadence (s : AudioGenerator) (c1 c2 : Z * Z) :
  well_formed s -> pixel_distance s c1 <= pixel_distance s c2 ->
  exists b1 v1 d1 k1 b2 v2 d2 k2 a1 a2,
    process_circle s c1 = ret (b1, v1, d1, k1)
    /\ process_circle s c2 = ret (b2, v2, d2, k2)
    /\ generate_sound b1 v1 d1 TRACK = ret (Some a1)
    /\ generate_sound b2 v2 d2 TRACK = ret (Some a2)
    /\ cycle_time_blip <= duration a1 <= duration a2
    /\ (pixel_distance s c1 = 0 -> duration a1 = cycle_time_blip).
Proof.
  intros Hwf Hle.
  assert (Hpd : 0 <= pixel_distance s c1).
  { unfold pixel_distance. destruct (ONLY_VERT_PACING s);
      [apply Rabs_pos | apply sqrt_pos]. }
  destruct (@process_circle_eq s c1 Hwf) as (d1 & Hd1 & Heq1).
  destruct (@process_circle_eq s c2 Hwf) as (d2 & Hd2 & Heq2).
  destruct (@get_distance_order s (pixel_distance s c1) (pixel_distance s c2)
              0 0 Hwf (conj Hpd Hle))
    as (r1 & r2 & Hr1 & Hr2 & Hr & Hzero & _).
  rewrite Hd1 in Hr1. injection Hr1 as <-.
  rewrite Hd2 in Hr2. injection Hr2 as <-.
  match type of Heq1 with
  | _ = ret (?b, ?v, _, _) =>
      destruct (@track_buffer b v d1 (shapeBalance_range _))
        as (a1 & Ha1 & Hdur1)
  end.
  match type of Heq2 with
  | _ = ret (?b, ?v, _, _) =>
      destruct (@track_buffer b v d2 (shapeBalance_range _))
        as (a2 & Ha2 & Hdur2)
  end.
  do 8 eexists. exists a1, a2.
  split; [exact Heq1 |]. split; [exact Heq2 |].
  split; [exact Ha1 |]. split; [exact Ha2 |].
  rewrite Hdur1, Hdur2.
  unfold cycle_time_blip, cycle_time_max. split.
  - split; nra.
  - intros Hz. rewrite Hz, Hzero in Hd1. injection Hd1 as <-. lra.
Qed.

Lemma track_cadence_witness :
  exists b1 v1 d1 k1 b2 v2 d2 k2 a1 a2,
    process_circle gen640 (400, 240)%Z = ret (b1, v1, d1, k1)
    /\ process_circle gen640 (400, 300)%Z = ret (b2, v2, d2, k2)
    /\ generate_sound b1 v1 d1 TRACK = ret (Some a1)
    /\ generate_sound b2 v2 d2 TRACK = ret (Some a2)
    /\ cycle_time_blip <= duration a1 <= duration a2
    /\ (pixel_distance gen640 (400, 240)%Z = 0 ->
        duration a1 = cycle_time_blip).
Proof.
  apply (@track_cadence gen640 (400, 240)%Z (400, 300)%Z).
  - unfold well_formed, gen640. cbn [boundaries max_displacement fst snd].
    repeat split; try lia. apply sqrt_lt_R0. lra.
  - unfold pixel_distance, gen640. cbn [ONLY_VERT_PACING boundaries fst snd].
    replace (IZR 240 - IZR 480 / 2) with 0 by lra.
    rewrite Rabs_R0. apply Rabs_pos.
Defined.

(* ================================================================= *)
(** ** The bull's eye *)

Lemma classify_bulls (s : AudioGenerator) (b v d : R) :
  classify s b v d = BULLS
  <-> -1 < b < 1
      /\ (if ONLY_VERT_PACING s then Rabs b < thresh_center /\ d < 10
          else d <= 10).
Proof.
  unfold classify.
  destruct (ONLY_VERT_PACING s); cbn [negb];
    cmp; (split; [intros H | intros (H1 & H2)]);
    try discriminate H; try reflexivity; try lra;
    try (repeat split; lra).
Qed.

Lemma shapeBalance_inside_deadzone (v : R) :
  Rabs (shapeBalance v) < centerDeadzone <-> Rabs v < 0.061584.
Proof.
  rewrite <- shapeBalance_abs.
  pose proof (Rabs_pos v) as Hv. set (a := Rabs v) in *.
  unfold centerDeadzone.
  destruct (Rle_dec a 0.06) as [H1 | H1].
  { rewrite shapeBalance_deadzone
      by (rewrite Rabs_right by lra; unfold centerDeadzone; lra).
    split; intros _; lra. }
  destruct (Rle_dec a 0.5) as [H2 | H2].
  - rewrite shapeBalance_curve_right
      by (unfold centerDeadzone, balanceThreshold; lra).
    assert (Hs : sqrt (0.06 * 0.06) = 0.06) by (apply sqrt_square; lra).
    assert (Hr : 0 < rescale a)
      by (apply rescale_pos; unfold centerDeadzone; lra).
    split; intros H.
    + rewrite <- Hs in H. apply sqrt_lt_0_alt in H.
      unfold rescale, centerDeadzone, balanceThreshold in H. lra.
    + rewrite <- Hs. apply sqrt_lt_1_alt.
      unfold rescale, centerDeadzone, balanceThreshold in *. lra.
  - rewrite shapeBalance_saturated_right by (unfold balanceThreshold; lra).
    split; intros H; lra.
Qed.

Lemma shapeBalance_unsaturated (v : R) :
  -1 < shapeBalance v < 1 <-> Rabs v < balanceThreshold.
Proof.
  pose proof (shapeBalance_ge_1 v) as [Hr1 Hr2].
  pose proof (shapeBalance_le_m1 v) as [Hl1 Hl2].
  unfold balanceThreshold in *. split.
  - intros [H1 H2]. apply Rabs_def1.
    + destruct (Rlt_dec v 0.5) as [| Hn]; [lra |].
      assert (Hv : 0.5 <= v) by lra. apply Hr2 in Hv. lra.
    + destruct (Rle_dec v (- (0.5))) as [Hv |]; [| lra].
      apply Hl2 in Hv. lra.
  - intros H. apply Rabs_def2 in H as [H1 H2]. split.
    + destruct (Rle_dec (shapeBalance v) (-1)) as [Hs |]; [| lra].
      apply Hl1 in Hs. lra.
    + destruct (Rle_dec 1 (shapeBalance v)) as [Hs |]; [| lra].
      apply Hr1 in Hs. lra.
Qed.

(** X19: where the bull's eye is.  In the vertical-only mode a position
    of a well-formed frame is [BULLS] exactly when its raw balance is
    below 0.061584 in size, a little beyond the dead zone of 0.06, and
    its height is less than 10 pixels from the centre line.  In the
    radial mode it is [BULLS] exactly when it lies between the wide zones
    and at most 10 pixels from the centre. *)
Theorem bulls_zone (s : AudioGenerator) (x y : Z) :
  well_formed s ->
  (classification_of s (x, y) = Some BULLS
   <-> if ONLY_VERT_PACING s
       then Rabs (rawBalance (fst (boundaries s)) x) < 0.061584
            /\ pixel_distance s (x, y) < 10
       else Rabs (rawBalance (fst (boundaries s)) x) < 0.5
            /\ pixel_distance s (x, y) <= 10).
Proof.
  intros Hwf. rewrite (classification_of_eq (x, y) Hwf). cbn [fst].
  set (raw := rawBalance (fst (boundaries s)) x).
  match goal with
  | |- context [classify s ?b ?v ?d] =>
      pose proof (@classify_bulls s b v d) as Hb
  end.
  pose proof (shapeBalance_inside_deadzone raw) as Hd.
  pose proof (shapeBalance_unsaturated raw) as Hu.
  unfold thresh_center, centerDeadzone, balanceThreshold in *.
  destruct (ONLY_VERT_PACING s); split; intros H.
  - injection H as H. apply Hb in H as (_ & H1 & H2).
    split; [apply Hd, H1 | exact H2].
  - destruct H as [H1 H2]. f_equal. apply Hb.
    assert (H3 : Rabs raw < 0.5) by lra.
    split; [apply Hu, H3 |]. split; [apply Hd, H1 | exact H2].
  - injection H as H. apply Hb in H as (H1 & H2).
    split; [apply Hu, H1 | exact H2].
  - destruct H as [H1 H2]. f_equal. apply Hb.
    split; [apply Hu, H1 | exact H2].
Qed.

Lemma bulls_zone_witness :
  classification_of gen640 (320, 240)%Z = Some BULLS
  <-> if ONLY_VERT_PACING gen640
      then Rabs (rawBalance (fst (boundaries gen640)) 320) < 0.061584
           /\ pixel_distance gen640 (320, 240)%Z < 10
      else Rabs (rawBalance (fst (boundaries gen640)) 320) < 0.5
           /\ pixel_distance gen640 (320, 240)%Z <= 10.
Proof.
  apply (@bulls_zone gen640 320 240).
  unfold well_formed, gen640. cbn [boundaries max_displacement fst snd].
  repeat split; try lia. apply sqrt_lt_R0. lra.
Defined.
